(** * The 3D sensor viewer of [src/App.jsx]: a shallow embedding

    The development follows the component [AircraftViewer3D] and the helpers
    it uses ([clamp], [RISK_COLOR], [RISK_COLOR_HEX], [RISK_LABEL]).

    Conventions.
    - A risk score and a viewport width are integers: [Z].
    - Every other JavaScript number is a [jsnum]: a rational, [NaN] or an
      infinity.  Arithmetic on rationals is exact: the rounding of IEEE
      doubles is not modelled.  [NaN] is there because [getXY] produces it
      from an empty touch list, the infinities because a mount of width or
      height 0 is divided by.
    - [Math.sin] is the real sine, so the per-marker emphasis lives in [R].
    - three.js and the DOM are outside the repository.  A ray cast is an
      oracle handed to the handler that performs it, asked at whatever
      coordinates the handler computes, finite or not; the renderer, the
      camera and the listener registry are small records. *)

From Stdlib Require Import ZArith QArith Qabs Qminmax Qpower Qround.
From Stdlib Require Import String Ascii List Bool Lia.
From Stdlib Require Import Reals Qreals Psatz.
Import ListNotations.

Open Scope Q_scope.

(* ------------------------------------------------------------------ *)
(** ** JavaScript numbers *)

Module JS.

Inductive jsnum : Type :=
| Num (q : Q)
| NaN
| Infinity (negative : bool).

Definition Qltb (x y : Q) : bool := if Qlt_le_dec x y then true else false.

(** Unary minus. *)
Definition neg (a : jsnum) : jsnum :=
  match a with
  | Num x => Num (- x)
  | NaN => NaN
  | Infinity s => Infinity (negb s)
  end.

(** [a + b]: the two infinities of opposite signs add up to [NaN]. *)
Definition add (a b : jsnum) : jsnum :=
  match a, b with
  | Num x, Num y => Num (x + y)
  | Num _, Infinity s => Infinity s
  | Infinity s, Num _ => Infinity s
  | Infinity s, Infinity s' => if Bool.eqb s s' then Infinity s else NaN
  | _, _ => NaN
  end.

(** [a - b] *)
Definition sub (a b : jsnum) : jsnum :=
  match a, b with
  | Num x, Num y => Num (x - y)
  | _, _ => add a (neg b)
  end.

(** [a * b]: an infinity times zero is [NaN]. *)
Definition mul (a b : jsnum) : jsnum :=
  match a, b with
  | Num x, Num y => Num (x * y)
  | Num y, Infinity s =>
      if Qeq_bool y 0 then NaN else Infinity (xorb s (Qltb y 0))
  | Infinity s, Num y =>
      if Qeq_bool y 0 then NaN else Infinity (xorb s (Qltb y 0))
  | Infinity s, Infinity s' => Infinity (xorb s s')
  | _, _ => NaN
  end.

(** [a / b].  A zero divisor gives an infinity with the sign of the
    dividend, and [NaN] for [0/0].  The one zero of [Q] is the positive zero:
    the divisors of this program are client sizes, which are never negative. *)
Definition div (a b : jsnum) : jsnum :=
  match a, b with
  | Num x, Num y =>
      if Qeq_bool y 0
      then (if Qeq_bool x 0 then NaN else Infinity (Qltb x 0))
      else Num (x / y)
  | Num _, Infinity _ => Num 0
  | Infinity s, Num y => Infinity (xorb s (Qltb y 0))
  | _, _ => NaN
  end.

(** [Math.abs] *)
Definition abs (a : jsnum) : jsnum :=
  match a with
  | Num x => Num (Qabs x)
  | NaN => NaN
  | Infinity _ => Infinity false
  end.

(** [Math.min], [Math.max]: [NaN] as soon as one argument is [NaN]. *)
Definition min (a b : jsnum) : jsnum :=
  match a, b with
  | Num x, Num y => Num (Qmin x y)
  | NaN, _ => NaN
  | _, NaN => NaN
  | Infinity true, _ => Infinity true
  | _, Infinity true => Infinity true
  | Infinity false, _ => b
  | _, Infinity false => a
  end.

Definition max (a b : jsnum) : jsnum :=
  match a, b with
  | Num x, Num y => Num (Qmax x y)
  | NaN, _ => NaN
  | _, NaN => NaN
  | Infinity false, _ => Infinity false
  | _, Infinity false => Infinity false
  | Infinity true, _ => b
  | _, Infinity true => a
  end.

(** [a < b]: false as soon as one operand is [NaN]. *)
Definition lt (a b : jsnum) : bool :=
  match a, b with
  | Num x, Num y => Qltb x y
  | NaN, _ => false
  | _, NaN => false
  | Infinity true, Infinity true => false
  | Infinity true, _ => true
  | Infinity false, _ => false
  | Num _, Infinity s => negb s
  end.

(** A number that is neither [NaN] nor an infinity. *)
Definition finite (a : jsnum) : Prop :=
  match a with Num _ => True | _ => False end.

(** The value in a closed interval. *)
Definition within (lo hi : Q) (a : jsnum) : Prop :=
  match a with Num x => lo <= x /\ x <= hi | _ => False end.

(** A value that is a string, [undefined] or [null] (a sensor id, the
    hovered id). *)
Inductive jsval : Type :=
| JNull
| JUndefined
| JStr (s : string).

(** [a === b] *)
Definition strict_eq (a b : jsval) : bool :=
  match a, b with
  | JNull, JNull => true
  | JUndefined, JUndefined => true
  | JStr s, JStr s' => String.eqb s s'
  | _, _ => false
  end.

(** What a call either returns or throws. *)
Inductive exn : Type :=
| TypeError
| NotFoundError.

Inductive result (A : Type) : Type :=
| Ok (a : A)
| Throw (e : exn).
Arguments Ok {A} a.
Arguments Throw {A} e.

Definition bind {A B} (m : result A) (k : A -> result B) : result B :=
  match m with
  | Ok a => k a
  | Throw e => Throw e
  end.

End JS.

Notation "x <- m ;; k" := (JS.bind m (fun x => k))
  (at level 61, m at next level, right associativity).

Import JS.

(* ------------------------------------------------------------------ *)
(** ** Helpers (lines 25-28) *)

(** [const clamp = (v, min, max) => Math.min(Math.max(v, min), max)] *)
Definition clamp (v lo hi : jsnum) : jsnum := JS.min (JS.max v lo) hi.

Module Risk.
Local Open Scope Z_scope.

Definition RISK_COLOR (r : Z) : string :=
  if r <? 30 then "#00e5c0"%string
  else if r <? 60 then "#f5a623"%string
  else "#ff3b5c"%string.

Definition RISK_COLOR_HEX (r : Z) : Z :=
  if r <? 30 then 0x00e5c0 else if r <? 60 then 0xf5a623 else 0xff3b5c.

Definition RISK_LABEL (r : Z) : string :=
  if r <? 30 then "NOMINAL"%string
  else if r <? 60 then "WATCH"%string
  else "CRITICAL"%string.

(** The three bands, and how each of the three outputs names a band. *)
Inductive Band : Type := Nominal | Watch | Critical.

Definition severity (b : Band) : Z :=
  match b with Nominal => 0 | Watch => 1 | Critical => 2 end.

Definition band_of_label (s : string) : option Band :=
  if String.eqb s "NOMINAL"%string then Some Nominal
  else if String.eqb s "WATCH"%string then Some Watch
  else if String.eqb s "CRITICAL"%string then Some Critical
  else None.

Definition band_of_color (s : string) : option Band :=
  if String.eqb s "#00e5c0"%string then Some Nominal
  else if String.eqb s "#f5a623"%string then Some Watch
  else if String.eqb s "#ff3b5c"%string then Some Critical
  else None.

Definition band_of_hex (c : Z) : option Band :=
  if c =? 0x00e5c0 then Some Nominal
  else if c =? 0xf5a623 then Some Watch
  else if c =? 0xff3b5c then Some Critical
  else None.

(** The band a score falls in, read off the text label. *)
Definition classification (r : Z) : option Band := band_of_label (RISK_LABEL r).

End Risk.

(* ------------------------------------------------------------------ *)
(** ** Device detection and the constants derived from it
       (lines 357-359, 396, 513, 549, 637-638, 649, 653, 659) *)

Module Device.

(** ASCII case folding, as the [i] flag of a regular expression without the
    [u] flag folds it: a character outside [A-Z] is left alone. *)
Definition lower (c : ascii) : ascii :=
  let n := nat_of_ascii c in
  if (65 <=? n)%nat && (n <=? 90)%nat then ascii_of_nat (n + 32) else c.

Fixpoint starts_with_ci (p s : string) : bool :=
  match p, s with
  | EmptyString, _ => true
  | String _ _, EmptyString => false
  | String a p', String b s' =>
      Ascii.eqb (lower a) (lower b) && starts_with_ci p' s'
  end.

(** [new RegExp(p, "i").test(s)] for a pattern [p] of plain letters. *)
Fixpoint test_ci (p s : string) : bool :=
  starts_with_ci p s ||
  match s with
  | EmptyString => false
  | String _ s' => test_ci p s'
  end.

(** A string with its capitals folded: two strings match under the [i]
    flag when their foldings are equal. *)
Fixpoint lower_string (s : string) : string :=
  match s with
  | EmptyString => EmptyString
  | String c s' => String (lower c) (lower_string s')
  end.

(** [/iPhone|iPad|iPod|Android/i.test(navigator.userAgent)] *)
Definition handheld (userAgent : string) : bool :=
  test_ci "iPhone" userAgent || test_ci "iPad" userAgent ||
  test_ci "iPod" userAgent || test_ci "Android" userAgent.

(** [const isMobile = /.../i.test(navigator.userAgent) || window.innerWidth < 768] *)
Definition isMobile (userAgent : string) (innerWidth : Z) : bool :=
  handheld userAgent || (innerWidth <? 768)%Z.

Section Constants.
Variable mobile : bool.

Definition pixelDensityCap : Q := if mobile then 1.2 else 2.

(** [isMobile ? Math.min(window.devicePixelRatio, 1.2)
              : Math.min(window.devicePixelRatio, 2)] *)
Definition pixelRatio (devicePixelRatio : jsnum) : jsnum :=
  if mobile then JS.min devicePixelRatio (Num 1.2)
  else JS.min devicePixelRatio (Num 2).

Definition geometryDetail : Z := if mobile then 12 else 24.
Definition antialias : bool := negb mobile.
Definition gridSize : Z := if mobile then 14 else 28.
Definition windshieldSegments : Z := if mobile then 8 else 16.
Definition engineDetail : Z := if mobile then 12 else 20.
Definition exhaustSegments : Z := if mobile then 10 else 16.
Definition sensorDetail : Z := if mobile then 8 else 14.

(** The parts built under [if (!isMobile)]. *)
Definition pitot : bool := negb mobile.
Definition apuExhaust : bool := negb mobile.
Definition intakeLip : bool := negb mobile.
Definition connectorStub : bool := negb mobile.

Definition targetFPS : Q := if mobile then 30 else 60.
Definition frameInterval : Q := 1000 / targetFPS.

(** [t += isMobile ? 0.024 : 0.016] *)
Definition tIncrement : Q := if mobile then 0.024 else 0.016.
(** [aircraft.rotation.y += isMobile ? 0.0015 : 0.0025] *)
Definition idleRotation : Q := if mobile then 0.0015 else 0.0025.
(** [const animSpeed = isMobile ? 1.5 : 2.5] *)
Definition animSpeed : Q := if mobile then 1.5 else 2.5.

End Constants.

(** The constants of one mount, gathered under the names of the data model. *)
Record DeviceProfile : Type := {
  isConstrained : bool;
  densityCap : Q;
  tessellation : Z;
  targetFrameMillis : Q;
  framesPerSecond : Q;
  enablePitot : bool;
  enableIntakeLip : bool;
  enableApuExhaust : bool;
  enableConnectorStrokes : bool
}.

Definition profile_of (mobile : bool) : DeviceProfile :=
  {| isConstrained := mobile;
     densityCap := pixelDensityCap mobile;
     tessellation := geometryDetail mobile;
     targetFrameMillis := frameInterval mobile;
     framesPerSecond := targetFPS mobile;
     enablePitot := pitot mobile;
     enableIntakeLip := intakeLip mobile;
     enableApuExhaust := apuExhaust mobile;
     enableConnectorStrokes := connectorStub mobile |}.

Definition resolve (userAgent : string) (innerWidth : Z) : DeviceProfile :=
  profile_of (isMobile userAgent innerWidth).

End Device.

(* ------------------------------------------------------------------ *)
(** ** Sensor records and the marker layer (lines 545-573) *)

Module Markers.

Definition Vec3 : Type := (Q * Q * Q)%type.

(** An element of [sensors3d].  [id] is [JUndefined] and [pos] is [None]
    when the record lacks the field. *)
Record Sensor : Type := {
  id : jsval;
  name : string;
  subsystem : string;
  pos : option Vec3;
  risk : Z;
  signals : list string;
  note : string
}.

(** What [sGroup] holds. *)
Inductive Object3D : Type :=
| Glow (position : Vec3) (color : Z) (segments : Z)
| Core (position : Vec3) (color : Z) (segments : Z) (sensor : Sensor)
| Connector (start : Vec3) (color : Z).

Record Layer : Type := {
  sGroup : list Object3D;
  sensorMeshes : list Object3D
}.

Definition emptyLayer : Layer := {| sGroup := []; sensorMeshes := [] |}.

(** [...sensor.pos] in an argument list: spreading [undefined] throws. *)
Definition spread (p : option Vec3) : result Vec3 :=
  match p with
  | Some v => Ok v
  | None => Throw TypeError
  end.

Definition add_child (o : Object3D) (l : Layer) : Layer :=
  {| sGroup := sGroup l ++ [o]; sensorMeshes := sensorMeshes l |}.

Definition push_mesh (o : Object3D) (l : Layer) : Layer :=
  {| sGroup := sGroup l; sensorMeshes := sensorMeshes l ++ [o] |}.

(** The body of [SENSORS_3D.forEach((sensor) => { ... })]. *)
Definition addSensor (mobile : bool) (sensor : Sensor) (l : Layer) : result Layer :=
  let col := Risk.RISK_COLOR_HEX (risk sensor) in
  gp <- spread (pos sensor) ;;
  let glow := Glow gp col (Device.sensorDetail mobile) in
  let l := add_child glow l in
  cp <- spread (pos sensor) ;;
  let core := Core cp col (Device.sensorDetail mobile) sensor in
  let l := add_child core l in
  let l := push_mesh core l in
  if negb mobile then
    dp <- spread (pos sensor) ;;
    Ok (add_child (Connector dp col) l)
  else Ok l.

(** [Array.prototype.forEach] with a callback that may throw. *)
Fixpoint forEach {A S : Type} (f : A -> S -> result S) (xs : list A) (s : S)
  : result S :=
  match xs with
  | [] => Ok s
  | x :: xs' => s' <- f x s ;; forEach f xs' s'
  end.

Definition buildMarkers (mobile : bool) (sensors : list Sensor) : result Layer :=
  forEach (addSensor mobile) sensors emptyLayer.

(** [m.userData.sensor] *)
Definition sensor_of (o : Object3D) : option Sensor :=
  match o with
  | Core _ _ _ s => Some s
  | _ => None
  end.

Fixpoint sensors_of (os : list Object3D) : list Sensor :=
  match os with
  | [] => []
  | o :: os' =>
      match sensor_of o with
      | Some s => s :: sensors_of os'
      | None => sensors_of os'
      end
  end.

(** The objects one record contributes when it has a position. *)
Definition marker_of (mobile : bool) (s : Sensor) (p : Vec3) : list Object3D :=
  let col := Risk.RISK_COLOR_HEX (risk s) in
  [Glow p col (Device.sensorDetail mobile);
   Core p col (Device.sensorDetail mobile) s]
  ++ (if negb mobile then [Connector p col] else []).

Definition has_position (s : Sensor) : bool :=
  match pos s with Some _ => true | None => false end.

Definition has_id (s : Sensor) : bool :=
  match id s with JStr _ => true | _ => false end.

(** The objects and the cores of the records that have a position. *)
Fixpoint markers_for (mobile : bool) (sensors : list Sensor) : list Object3D :=
  match sensors with
  | [] => []
  | s :: rest =>
      match pos s with
      | Some p => marker_of mobile s p ++ markers_for mobile rest
      | None => markers_for mobile rest
      end
  end.

Fixpoint cores_for (mobile : bool) (sensors : list Sensor) : list Object3D :=
  match sensors with
  | [] => []
  | s :: rest =>
      match pos s with
      | Some p =>
          Core p (Risk.RISK_COLOR_HEX (risk s)) (Device.sensorDetail mobile) s
          :: cores_for mobile rest
      | None => cores_for mobile rest
      end
  end.

(** A record with both required fields. *)
Definition well_formed (s : Sensor) : bool := has_position s && has_id s.

(** The reading under which a malformed record is skipped and the rest are
    built: construction returns, and the cores are those of the well-formed
    records, in order. *)
Definition skips_malformed (mobile : bool) (sensors : list Sensor) : Prop :=
  exists l, buildMarkers mobile sensors = Ok l /\
            sensors_of (sensorMeshes l) = filter well_formed sensors.

(** Records of flight EK205 (lines 44-45), and two that lack a field. *)
Definition eng1 : Sensor :=
  {| id := JStr "eng1"; name := "Engine 1 - Inner Left"; subsystem := "eng";
     pos := Some (-1.7, -0.6, 0.5); risk := 18;
     signals := ["N1: 88.4%"; "EGT: 619 C"; "Oil: 40 PSI"]%string;
     note := "All parameters nominal." |}.

Definition eng2 : Sensor :=
  {| id := JStr "eng2"; name := "Engine 2 - Outer Left"; subsystem := "eng";
     pos := Some (-3.2, -0.6, 0.3); risk := 14;
     signals := ["N1: 88.1%"; "EGT: 616 C"; "Vib: 0.4 IPS"]%string;
     note := "Cleanest engine run of the day." |}.

Definition no_position : Sensor :=
  {| id := JStr "wingL"; name := "Wing Flex - Port"; subsystem := "struct";
     pos := None; risk := 28; signals := []; note := "" |}.

Definition no_id : Sensor :=
  {| id := JUndefined; name := "Frame 47"; subsystem := "struct";
     pos := Some (0, 0, 0.4); risk := 22; signals := []; note := "" |}.

End Markers.

(* ------------------------------------------------------------------ *)
(** ** The viewer: closure variables, handlers, animation loop, cleanup
       (lines 348-349, 575-692) *)

Module Viewer.
Import Markers.

Inductive EventType : Type :=
| mousedown | mousemove | mouseup
| touchstart | touchmove | touchend | touchcancel
| resize.

Inductive Target : Type := TMount | TWindow.

Inductive Handler : Type := HDown | HMove | HUp | HResize.

Record Listener : Type := {
  target : Target;
  type : EventType;
  handler : Handler
}.

Definition EventType_eqb (a b : EventType) : bool :=
  match a, b with
  | mousedown, mousedown | mousemove, mousemove | mouseup, mouseup
  | touchstart, touchstart | touchmove, touchmove | touchend, touchend
  | touchcancel, touchcancel | resize, resize => true
  | _, _ => false
  end.

Definition Target_eqb (a b : Target) : bool :=
  match a, b with
  | TMount, TMount | TWindow, TWindow => true
  | _, _ => false
  end.

Definition Handler_eqb (a b : Handler) : bool :=
  match a, b with
  | HDown, HDown | HMove, HMove | HUp, HUp | HResize, HResize => true
  | _, _ => false
  end.

Definition Listener_eqb (a b : Listener) : bool :=
  Target_eqb (target a) (target b) && EventType_eqb (type a) (type b)
  && Handler_eqb (handler a) (handler b).

(** The event object a handler receives. *)
Inductive DomEvent : Type :=
| MouseEvent (clientX clientY : Q)
| TouchEvent (touches : list (Q * Q))
| UIEvent.

Record Rect : Type := { left : Q; top : Q }.

(** What a handler reads from the page and the scene when it runs:
    [mount.getBoundingClientRect()], [mount.clientWidth/clientHeight], and
    the sensors of the cores met by the ray through a point given in
    normalized device coordinates, nearest first
    ([rc.setFromCamera(mouse, camera); rc.intersectObjects(sensorMeshes)]).
    The handlers pass the coordinates on as they computed them, [NaN] and
    the infinities included: what three.js returns then is its own. *)
Record Env : Type := {
  rect : Rect;
  clientWidth : Q;
  clientHeight : Q;
  raycast : jsnum -> jsnum -> list Sensor
}.

(** [let isDragging=false, dragDist=0, lastX=0, lastY=0, velX=0] *)
Record Drag : Type := {
  isDragging : bool;
  dragDist : jsnum;
  lastX : jsnum;
  lastY : jsnum;
  velX : jsnum
}.

(** [aircraft.rotation] *)
Record Rotation : Type := { rotation_y : jsnum; rotation_x : jsnum }.

(** [let rafId, t=0, lastFrameTime=0] *)
Record Loop : Type := {
  rafId : option nat;
  t : jsnum;
  lastFrameTime : jsnum
}.

(** [stateRef.current] *)
Record StateRef : Type := { hoveredId : jsval; selectedId : jsval }.

(** The page: registered listeners, the frame callbacks the browser still
    owes, the next handle [requestAnimationFrame] returns, whether the canvas
    is a child of the mount, the mount's cursor. *)
Record Page : Type := {
  listeners : list Listener;
  frameRequests : list nat;
  nextHandle : nat;
  canvasAttached : bool;
  cursor : string
}.

(** The camera and the renderer; [frames] counts [renderer.render] calls. *)
Record Gfx : Type := {
  aspect : jsnum;
  size : jsnum * jsnum;
  disposed : bool;
  frames : nat
}.

Record State : Type := {
  drag : Drag;
  rotation : Rotation;
  loop : Loop;
  stateRef : StateRef;
  selected : option Sensor;
  page : Page;
  gfx : Gfx;
  layer : Layer
}.

Definition set_drag (d : Drag) (v : State) : State :=
  {| drag := d; rotation := rotation v; loop := loop v; stateRef := stateRef v;
     selected := selected v; page := page v; gfx := gfx v; layer := layer v |}.
Definition set_rotation (r : Rotation) (v : State) : State :=
  {| drag := drag v; rotation := r; loop := loop v; stateRef := stateRef v;
     selected := selected v; page := page v; gfx := gfx v; layer := layer v |}.
Definition set_loop (l : Loop) (v : State) : State :=
  {| drag := drag v; rotation := rotation v; loop := l; stateRef := stateRef v;
     selected := selected v; page := page v; gfx := gfx v; layer := layer v |}.
Definition set_stateRef (r : StateRef) (v : State) : State :=
  {| drag := drag v; rotation := rotation v; loop := loop v; stateRef := r;
     selected := selected v; page := page v; gfx := gfx v; layer := layer v |}.
Definition set_selected (s : option Sensor) (v : State) : State :=
  {| drag := drag v; rotation := rotation v; loop := loop v;
     stateRef := stateRef v;
     selected := s; page := page v; gfx := gfx v; layer := layer v |}.
Definition set_page (p : Page) (v : State) : State :=
  {| drag := drag v; rotation := rotation v; loop := loop v;
     stateRef := stateRef v;
     selected := selected v; page := p; gfx := gfx v; layer := layer v |}.
Definition set_gfx (g : Gfx) (v : State) : State :=
  {| drag := drag v; rotation := rotation v; loop := loop v;
     stateRef := stateRef v;
     selected := selected v; page := page v; gfx := g; layer := layer v |}.

(** *** The page's primitives *)

(** [target.addEventListener(type, handler)]: a listener already registered
    is not registered twice. *)
Definition addEventListener (l : Listener) (v : State) : State :=
  let p := page v in
  if existsb (Listener_eqb l) (listeners p) then v
  else set_page {| listeners := listeners p ++ [l];
                   frameRequests := frameRequests p;
                   nextHandle := nextHandle p;
                   canvasAttached := canvasAttached p;
                   cursor := cursor p |} v.

(** [target.removeEventListener(type, handler)] *)
Definition removeEventListener (l : Listener) (v : State) : State :=
  let p := page v in
  set_page {| listeners := filter (fun k => negb (Listener_eqb l k)) (listeners p);
              frameRequests := frameRequests p;
              nextHandle := nextHandle p;
              canvasAttached := canvasAttached p;
              cursor := cursor p |} v.

(** [requestAnimationFrame(animate)]: a fresh handle, owed one call. *)
Definition requestAnimationFrame (v : State) : nat * State :=
  let p := page v in
  let h := nextHandle p in
  (h, set_page {| listeners := listeners p;
                  frameRequests := frameRequests p ++ [h];
                  nextHandle := S h;
                  canvasAttached := canvasAttached p;
                  cursor := cursor p |} v).

(** [cancelAnimationFrame(id)]: nothing happens for [undefined] or for a
    handle that is not pending. *)
Definition cancelAnimationFrame (id : option nat) (v : State) : State :=
  let p := page v in
  match id with
  | None => v
  | Some h =>
      set_page {| listeners := listeners p;
                  frameRequests := filter (fun k => negb (Nat.eqb h k)) (frameRequests p);
                  nextHandle := nextHandle p;
                  canvasAttached := canvasAttached p;
                  cursor := cursor p |} v
  end.

Definition set_cursor (c : string) (v : State) : State :=
  let p := page v in
  set_page {| listeners := listeners p;
              frameRequests := frameRequests p;
              nextHandle := nextHandle p;
              canvasAttached := canvasAttached p;
              cursor := c |} v.

(** [mount.removeChild(renderer.domElement)]: throws when the canvas is not a
    child of the mount. *)
Definition removeChild (v : State) : result State :=
  let p := page v in
  if canvasAttached p then
    Ok (set_page {| listeners := listeners p;
                    frameRequests := frameRequests p;
                    nextHandle := nextHandle p;
                    canvasAttached := false;
                    cursor := cursor p |} v)
  else Throw NotFoundError.

(** [renderer.render(scene, camera)] *)
Definition render (v : State) : State :=
  let g := gfx v in
  set_gfx {| aspect := aspect g; size := size g; disposed := disposed g;
             frames := S (frames g) |} v.

(** [renderer.dispose()] *)
Definition dispose (v : State) : State :=
  let g := gfx v in
  set_gfx {| aspect := aspect g; size := size g; disposed := true;
             frames := frames g |} v.

(** [useEffect(() => { stateRef.current.selectedId = selected?.id }, [selected])] *)
Definition syncSelected (v : State) : State :=
  set_stateRef {| hoveredId := hoveredId (stateRef v);
                  selectedId := match selected v with
                                | Some x => id x
                                | None => JUndefined
                                end |} v.

(** [setSelected(s)]: the state is replaced and, the value having changed or
    not, the ref holds [selected?.id] once the update is committed. *)
Definition setSelected (s : option Sensor) (v : State) : State :=
  syncSelected (set_selected s v).

(** *** The effect of [useEffect(() => { ... }, [])] *)

Section Mounted.

(** [isMobile], and [W], [H]: the mount's client size when the effect ran. *)
Variable mobile : bool.
Variables W H : Q.

(** [new THREE.Vector2((cx/W)*2-1, -(cy/H)*2+1)] *)
Definition ndc (cx cy : jsnum) : jsnum * jsnum :=
  (JS.sub (JS.mul (JS.div cx (Num W)) (Num 2)) (Num 1),
   JS.add (JS.mul (JS.neg (JS.div cy (Num H))) (Num 2)) (Num 1)).

(** [rc.setFromCamera(mouse, camera); rc.intersectObjects(sensorMeshes)]:
    the ray cast is performed whatever the coordinates are. *)
Definition intersect (env : Env) (mouse : jsnum * jsnum) : list Sensor :=
  raycast env (fst mouse) (snd mouse).

(** [e.touches] is truthy: every touch event has the list, empty or not. *)
Definition has_touches (e : DomEvent) : bool :=
  match e with TouchEvent _ => true | _ => false end.

(** [e.touches ? e.touches[0]?.clientX : e.clientX], as the operand of the
    subtraction that follows: [undefined] is [NaN] there. *)
Definition clientX_of (e : DomEvent) : jsnum :=
  match e with
  | TouchEvent ((x, _) :: _) => Num x
  | TouchEvent [] => NaN
  | MouseEvent x _ => Num x
  | UIEvent => NaN
  end.

Definition clientY_of (e : DomEvent) : jsnum :=
  match e with
  | TouchEvent ((_, y) :: _) => Num y
  | TouchEvent [] => NaN
  | MouseEvent _ y => Num y
  | UIEvent => NaN
  end.

Definition getXY (env : Env) (e : DomEvent) : jsnum * jsnum :=
  let r := rect env in
  (JS.sub (clientX_of e) (Num (left r)), JS.sub (clientY_of e) (Num (top r))).

Definition onDown (env : Env) (e : DomEvent) (v : State) : State :=
  let '(cx, cy) := getXY env e in
  set_drag {| isDragging := true; dragDist := Num 0;
              lastX := cx; lastY := cy; velX := velX (drag v) |} v.

Definition onMove (env : Env) (e : DomEvent) (v : State) : State :=
  let '(cx, cy) := getXY env e in
  let v :=
    if isDragging (drag v) then
      let d := drag v in
      let r := rotation v in
      let dx := JS.sub cx (lastX d) in
      let dy := JS.sub cy (lastY d) in
      let v := set_drag {| isDragging := isDragging d;
                           dragDist := JS.add (dragDist d) (JS.add (JS.abs dx) (JS.abs dy));
                           lastX := cx; lastY := cy;
                           velX := JS.mul dx (Num 0.012) |} v in
      set_rotation
        {| rotation_y := JS.add (rotation_y r) (JS.mul dx (Num 0.012));
           rotation_x := clamp (JS.add (rotation_x r) (JS.mul dy (Num 0.006)))
                               (Num (-0.7)) (Num 0.7) |} v
    else v in
  if has_touches e then v
  else
    let hits := intersect env (ndc cx cy) in
    let v := set_stateRef
               {| hoveredId := match hits with s :: _ => id s | [] => JNull end;
                  selectedId := selectedId (stateRef v) |} v in
    set_cursor (match hits with _ :: _ => "pointer" | [] => "grab" end)%string v.

Definition onUp (env : Env) (e : DomEvent) (v : State) : State :=
  let v :=
    if JS.lt (dragDist (drag v)) (Num 6) then
      let '(cx, cy) := getXY env e in
      let hits := intersect env (ndc cx cy) in
      setSelected (match hits with s :: _ => Some s | [] => None end) v
    else v in
  let d := drag v in
  set_drag {| isDragging := false; dragDist := dragDist d;
              lastX := lastX d; lastY := lastY d; velX := velX d |} v.

(** The test that skips a frame:
    [isMobile && currentTime - lastFrameTime < frameInterval]. *)
Definition throttled (currentTime : Q) (v : State) : bool :=
  mobile && JS.lt (JS.sub (Num currentTime) (lastFrameTime (loop v)))
                  (Num (Device.frameInterval mobile)).

(** What an executed frame does after the test.  The writes to each marker's
    scale, emissive intensity and opacity go to three.js objects that only
    the renderer reads; they are the functions of [Emphasis] below. *)
Definition frame (currentTime : Q) (v : State) : State :=
  let l := loop v in
  let v := set_loop {| rafId := rafId l;
                       t := JS.add (t l) (Num (Device.tIncrement mobile));
                       lastFrameTime := Num currentTime |} v in
  let v :=
    if negb (isDragging (drag v)) then
      let d := drag v in
      let r := rotation v in
      let ry := JS.add (rotation_y r) (JS.mul (velX d) (Num 0.94)) in
      let vx := JS.mul (velX d) (Num 0.94) in
      let ry := JS.add ry (Num (Device.idleRotation mobile)) in
      set_rotation {| rotation_y := ry; rotation_x := rotation_x r |}
        (set_drag {| isDragging := isDragging d; dragDist := dragDist d;
                     lastX := lastX d; lastY := lastY d; velX := vx |} v)
    else v in
  render v.

Definition animate (currentTime : Q) (v : State) : State :=
  let '(h, v) := requestAnimationFrame v in
  let l := loop v in
  let v := set_loop {| rafId := Some h; t := t l;
                       lastFrameTime := lastFrameTime l |} v in
  if throttled currentTime v then v else frame currentTime v.

(** The loop left alone: the callbacks of successive frames, no handler in
    between. *)
Definition animateAll (times : list Q) (v : State) : State :=
  fold_left (fun v currentTime => animate currentTime v) times v.

Definition onResize (env : Env) (v : State) : State :=
  let nW := clientWidth env in
  let nH := clientHeight env in
  let g := gfx v in
  set_gfx {| aspect := JS.div (Num nW) (Num nH);
             size := (Num nW, Num nH);
             disposed := disposed g;
             frames := frames g |} v.

Definition L (tg : Target) (ty : EventType) (h : Handler) : Listener :=
  {| target := tg; type := ty; handler := h |}.

(** The function the effect returns. *)
Definition cleanup (v : State) : result State :=
  let v := cancelAnimationFrame (rafId (loop v)) v in
  let v := removeEventListener (L TMount mousedown HDown) v in
  let v := removeEventListener (L TWindow mousemove HMove) v in
  let v := removeEventListener (L TWindow mouseup HUp) v in
  let v := removeEventListener (L TMount touchstart HDown) v in
  let v := removeEventListener (L TMount touchmove HMove) v in
  let v := removeEventListener (L TMount touchend HUp) v in
  let v := removeEventListener (L TMount touchcancel HUp) v in
  let v := removeEventListener (L TWindow resize HResize) v in
  v <- (if canvasAttached (page v) then removeChild v else Ok v) ;;
  Ok (dispose v).

(** The state the effect starts from: renderer sized and attached, camera
    aspect [W/H], the aircraft group unrotated, the marker layer built. *)
Definition created (l : Layer) : State :=
  {| drag := {| isDragging := false; dragDist := Num 0;
                lastX := Num 0; lastY := Num 0; velX := Num 0 |};
     rotation := {| rotation_y := Num 0; rotation_x := Num 0 |};
     loop := {| rafId := None; t := Num 0; lastFrameTime := Num 0 |};
     stateRef := {| hoveredId := JNull; selectedId := JNull |};
     selected := None;
     page := {| listeners := []; frameRequests := []; nextHandle := 1%nat;
                canvasAttached := true; cursor := "grab"%string |};
     gfx := {| aspect := JS.div (Num W) (Num H); size := (Num W, Num H);
               disposed := false; frames := 0%nat |};
     layer := l |}.

Definition mountEffect (sensors : list Sensor) : result State :=
  l <- buildMarkers mobile sensors ;;
  let v := created l in
  let v := addEventListener (L TMount mousedown HDown) v in
  let v := addEventListener (L TWindow mousemove HMove) v in
  let v := addEventListener (L TWindow mouseup HUp) v in
  let v := addEventListener (L TMount touchstart HDown) v in
  let v := addEventListener (L TMount touchmove HMove) v in
  let v := addEventListener (L TMount touchend HUp) v in
  let v := addEventListener (L TMount touchcancel HUp) v in
  let v := animate 0 v in
  let v := addEventListener (L TWindow resize HResize) v in
  (* the second effect runs once after the first render *)
  Ok (syncSelected v).

(** *** What the browser does between mount and unmount *)

Inductive BrowserEvent : Type :=
| Dispatch (ty : EventType) (onMount : bool) (env : Env) (e : DomEvent)
| AnimationFrame (currentTime : Q)
| UiSelect (s : option Sensor).

Definition invoke (h : Handler) (env : Env) (e : DomEvent) (v : State) : State :=
  match h with
  | HDown => onDown env e v
  | HMove => onMove env e v
  | HUp => onUp env e v
  | HResize => onResize env v
  end.

(** A listener on the window hears every event of its type; one on the mount
    hears those whose target is inside the mount. *)
Definition hears (ty : EventType) (onMount : bool) (l : Listener) : bool :=
  EventType_eqb (type l) ty &&
  match target l with TWindow => true | TMount => onMount end.

Definition dispatch (ty : EventType) (onMount : bool) (env : Env) (e : DomEvent)
  (v : State) : State :=
  fold_left (fun v l => invoke (handler l) env e v)
            (filter (hears ty onMount) (listeners (page v))) v.

(** The browser runs the frame callbacks it owes, and owes them no more. *)
Definition runFrame (currentTime : Q) (v : State) : State :=
  let p := page v in
  let owed := frameRequests p in
  let v := set_page {| listeners := listeners p; frameRequests := [];
                       nextHandle := nextHandle p;
                       canvasAttached := canvasAttached p;
                       cursor := cursor p |} v in
  fold_left (fun v _ => animate currentTime v) owed v.

Definition step (v : State) (ev : BrowserEvent) : State :=
  match ev with
  | Dispatch ty onMount env e => dispatch ty onMount env e v
  | AnimationFrame ct => runFrame ct v
  | UiSelect s => setSelected s v
  end.

Definition run (evs : list BrowserEvent) (v : State) : State :=
  fold_left step evs v.

End Mounted.

(** A desktop mount of 800 by 600 with two sensors; the same after the mouse
    went down at (100, 100), moved to (110, 103) and came up there; and an
    environment whose ray meets [eng1] wherever it goes. *)
Definition env0 : Env :=
  {| rect := {| left := 0; top := 0 |};
     clientWidth := 800; clientHeight := 600;
     raycast := fun _ _ => [eng1] |}.

(** An environment whose ray meets [eng1] through every finite point and
    nothing otherwise: a ray caster that returns no hit for a ray without a
    direction. *)
Definition env_finite : Env :=
  {| rect := {| left := 0; top := 0 |};
     clientWidth := 800; clientHeight := 600;
     raycast := fun x y => match x, y with
                           | Num _, Num _ => [eng1]
                           | _, _ => []
                           end |}.

Definition fresh (mobile : bool) : State :=
  match mountEffect mobile 800 600 [eng1; eng2] with
  | Ok v => v
  | Throw _ => created 800 600 emptyLayer
  end.

Definition dragged (mobile : bool) : State :=
  onUp 800 600 env0 (MouseEvent 110 103)
    (onMove 800 600 env0 (MouseEvent 110 103)
       (onDown env0 (MouseEvent 100 100) (fresh mobile))).

(** The handler the effect registers for each event type. *)
Definition handler_for (ty : EventType) : Handler :=
  match ty with
  | mousedown | touchstart => HDown
  | mousemove | touchmove => HMove
  | mouseup | touchend | touchcancel => HUp
  | resize => HResize
  end.

Definition registered (l : Listener) : bool :=
  Handler_eqb (handler l) (handler_for (type l)).

(** The event carries a position: a mouse event, or a touch event with a
    touch in its list. *)
Definition carries_position (e : DomEvent) : bool :=
  match e with
  | MouseEvent _ _ => true
  | TouchEvent (_ :: _) => true
  | _ => false
  end.

(** The listeners the effect registers, in the order it registers them. *)
Definition registered_listeners : list Listener :=
  [ L TMount mousedown HDown; L TWindow mousemove HMove; L TWindow mouseup HUp;
    L TMount touchstart HDown; L TMount touchmove HMove; L TMount touchend HUp;
    L TMount touchcancel HUp; L TWindow resize HResize ].

(** Between mount and unmount: those listeners and no other, and exactly one
    frame callback owed, the one [rafId] names. *)
Definition live (v : State) : Prop :=
  listeners (page v) = registered_listeners /\
  exists h, rafId (loop v) = Some h /\ frameRequests (page v) = [h].

(** After the cleanup: no listener, no frame callback owed, the canvas
    detached, the renderer disposed. *)
Definition torn_down (v : State) : Prop :=
  listeners (page v) = [] /\ frameRequests (page v) = [] /\
  canvasAttached (page v) = false /\ disposed (gfx v) = true.

(** A press at (100, 100), a move far down, the release, and three frames. *)
Definition long_drag : list BrowserEvent :=
  [ Dispatch mousedown true env0 (MouseEvent 100 100);
    Dispatch mousemove true env0 (MouseEvent 130 1000);
    Dispatch mouseup true env0 (MouseEvent 130 1000);
    AnimationFrame 16; AnimationFrame 33; AnimationFrame 50 ].

(** What holds of the state between two events: the last position is a
    number, the pitch is within its bounds, and every listener is one the
    effect registered. *)
Definition steady (v : State) : Prop :=
  finite (lastX (drag v)) /\ finite (lastY (drag v)) /\
  within (-0.7) 0.7 (rotation_x (rotation v)) /\
  forallb registered (listeners (page v)) = true.

(** The event object matches the event type, and a touch that starts or
    moves is in the list of touches. *)
Definition event_ok (ev : BrowserEvent) : bool :=
  match ev with
  | Dispatch ty _ _ e =>
      match ty, e with
      | (mousedown | mousemove | mouseup), MouseEvent _ _ => true
      | (touchstart | touchmove), TouchEvent (_ :: _) => true
      | (touchend | touchcancel), TouchEvent _ => true
      | resize, UIEvent => true
      | _, _ => false
      end
  | _ => true
  end.

End Viewer.

(* ------------------------------------------------------------------ *)
(** ** Per-frame emphasis of a marker (lines 655-664) *)

Module Emphasis.
Import Markers Viewer.
Local Open Scope R_scope.

Section Frame.
Variable mobile : bool.

(** [Math.sin(t*animSpeed + i*0.62)] *)
Definition phase (t : Q) (i : nat) : R :=
  sin (Q2R (t * Device.animSpeed mobile + inject_Z (Z.of_nat i) * 0.62)).

(** [const p = 0.88 + 0.28*Math.sin(...)]; [m.scale.setScalar(isSel?1.6:isHov?1.3:p)] *)
Definition scale (isSel isHov : bool) (t : Q) (i : nat) : R :=
  if isSel then 1.6 else if isHov then 1.3 else 0.88 + 0.28 * phase t i.

(** [coreM.emissiveIntensity = isSel?1.3:isHov?1.0:0.5+0.35*Math.sin(...)] *)
Definition emissiveIntensity (isSel isHov : bool) (t : Q) (i : nat) : R :=
  if isSel then 1.3 else if isHov then 1.0 else 0.5 + 0.35 * phase t i.

(** [glowM.opacity = isSel?0.38:isHov?0.26:0.08+0.07*Math.sin(...)] *)
Definition opacity (isSel isHov : bool) (t : Q) (i : nat) : R :=
  if isSel then 0.38 else if isHov then 0.26 else 0.08 + 0.07 * phase t i.

(** [sensor.id === stateRef.current.selectedId], [... .hoveredId] *)
Definition isSel (r : StateRef) (s : Sensor) : bool :=
  strict_eq (id s) (selectedId r).
Definition isHov (r : StateRef) (s : Sensor) : bool :=
  strict_eq (id s) (hoveredId r).

(** What one frame writes for the marker at index [i]. *)
Definition emphasis (r : StateRef) (t : Q) (i : nat) (s : Sensor) : R * R * R :=
  (scale (isSel r s) (isHov r s) t i,
   emissiveIntensity (isSel r s) (isHov r s) t i,
   opacity (isSel r s) (isHov r s) t i).

End Frame.
End Emphasis.

(* ------------------------------------------------------------------ *)
(** ** Whole gestures, runs of the loop, and what holds between events *)

Module Session.
Import Markers Viewer.

Section Mounted.
Variable mobile : bool.
Variables W H : Q.



(** [t] after [n] executed frames: [t=0], then [t+=isMobile ? 0.024 : 0.016]
    once per frame, added one after the other as the loop does. *)
Definition accumulated (n : nat) : jsnum :=
  Nat.iter n (fun t => JS.add t (Num (Device.tIncrement mobile))) (Num 0).

(** The time accumulator has been advanced once per frame rendered. *)
Definition clocked (v : State) : Prop :=
  t (loop v) = accumulated (frames (gfx v)).

(** The viewer while it is mounted: its eight listeners, its canvas in the
    page, its renderer in use, and the one frame callback owed, under a
    handle older than the next one. *)
Definition running (v : State) : Prop :=
  listeners (page v) = registered_listeners /\
  canvasAttached (page v) = true /\ disposed (gfx v) = false /\
  exists h, rafId (loop v) = Some h /\ frameRequests (page v) = [h] /\
            (h < nextHandle (page v))%nat.

(** The cursor is the grab hand over nothing, the pointing hand otherwise. *)
Definition hover_shown (v : State) : Prop :=
  (cursor (page v) = "grab"%string /\ hoveredId (stateRef v) = JNull) \/
  cursor (page v) = "pointer"%string.

End Mounted.

(** An event that is no mouse event: a touch event, a resize, a frame, a
    click in the list. *)
Definition no_mouse (ev : BrowserEvent) : bool :=
  match ev with
  | Dispatch _ _ _ (TouchEvent _) => true
  | Dispatch resize _ _ _ => true
  | Dispatch _ _ _ _ => false
  | _ => true
  end.

End Session.

(* ------------------------------------------------------------------ *)
(** ** The summary tiles and the subsystem pills (lines 694, 723-731, 833-835) *)

Module Summary.
Import Markers.
Local Open Scope Z_scope.

(** [SENSORS_3D.filter(s=>s.risk<30).length] and its two neighbours. *)
Definition nominal (sensors : list Sensor) : nat :=
  length (filter (fun s => risk s <? 30) sensors).
Definition watch (sensors : list Sensor) : nat :=
  length (filter (fun s => (30 <=? risk s) && (risk s <? 60)) sensors).
Definition critical (sensors : list Sensor) : nat :=
  length (filter (fun s => 60 <=? risk s) sensors).

(** [[...new Set(xs)]]: the first occurrence of each value, in order. *)
Fixpoint distinct (xs : list string) : list string :=
  match xs with
  | [] => []
  | x :: rest => x :: filter (fun y => negb (String.eqb x y)) (distinct rest)
  end.

(** [[...new Set(SENSORS_3D.map(s=>s.subsystem))]] *)
Definition subsystems (sensors : list Sensor) : list string :=
  distinct (map subsystem sensors).

(** [SENSORS_3D.filter(s=>s.subsystem===sid)] *)
Definition members (sid : string) (sensors : list Sensor) : list Sensor :=
  filter (fun s => String.eqb (subsystem s) sid) sensors.

(** [Math.max(...zs)] of integers: minus infinity when there is none. *)
Inductive maxval : Type := NegInfinity | Fin (z : Z).

Fixpoint Math_max (zs : list Z) : maxval :=
  match zs with
  | [] => NegInfinity
  | z :: rest =>
      match Math_max rest with
      | NegInfinity => Fin z
      | Fin m => Fin (Z.max z m)
      end
  end.

Definition maxRisk (sid : string) (sensors : list Sensor) : maxval :=
  Math_max (map risk (members sid sensors)).

Definition count (sid : string) (sensors : list Sensor) : nat :=
  length (members sid sensors).

(** [RISK_COLOR(maxRisk)]; minus infinity is below 30. *)
Definition pillColor (sid : string) (sensors : list Sensor) : string :=
  match maxRisk sid sensors with
  | NegInfinity => "#00e5c0"%string
  | Fin m => Risk.RISK_COLOR m
  end.

End Summary.

(* ------------------------------------------------------------------ *)
(** ** [useIsMobile] (lines 5-20) *)

Module Hook.

(** The initial state: [false] without a window, else [innerWidth < 768]. *)
Definition initial (innerWidth : option Z) : bool :=
  match innerWidth with
  | None => false
  | Some w => (w <? 768)%Z
  end.

(** [handleResize]: [setIsMobile(window.innerWidth < 768)] *)
Definition handleResize (innerWidth : Z) (isMobile : bool) : bool :=
  (innerWidth <? 768)%Z.

(** The hook through the resizes of a session. *)
Definition useIsMobile (innerWidth : option Z) (resizes : list Z) : bool :=
  fold_left (fun st w => handleResize w st) resizes (initial innerWidth).

End Hook.

(* ------------------------------------------------------------------ *)
(** ** [rand], and the tick of the dashboard (lines 23-24, 1348-1353) *)

Module Dashboard.

(** [x.toFixed(dec)] read back by [parseFloat]: the nearest multiple of
    [10^-dec], a tie going away from zero.  On exact rationals. *)
Definition toFixed (x : Q) (dec : nat) : Q :=
  let s := inject_Z (10 ^ Z.of_nat dec) in
  if Qlt_le_dec x 0
  then - (inject_Z (Qfloor (- x * s + (1 # 2))) / s)
  else inject_Z (Qfloor (x * s + (1 # 2))) / s.

(** [rand(min, max, dec = 1)] with the value [u] of [Math.random()]. *)
Definition rand (u : Q) (lo hi : Q) (dec : nat) : Q :=
  toFixed (u * (hi - lo) + lo) dec.

(** An element of [subsystems]. *)
Record Subsystem : Type := {
  id : string;
  name : string;
  risk : jsnum;
  trend : string;
  badge : string
}.

(** [{...s, risk: clamp(s.risk + rand(-2,2), 0, 99)}] *)
Definition jitter (u : Q) (s : Subsystem) : Subsystem :=
  {| id := id s; name := name s;
     risk := clamp (JS.add (risk s) (Num (rand u (-2) 2 1))) (Num 0) (Num 99);
     trend := trend s; badge := badge s |}.

(** [p.map(s => ...)]: the subsystem at index [i] draws [random i].  The
    numbers only tell the draws of one tick apart, they do not order them. *)
Fixpoint jitterFrom (random : nat -> Q) (i : nat) (p : list Subsystem)
  : list Subsystem :=
  match p with
  | [] => []
  | s :: rest => jitter (random i) s :: jitterFrom random (S i) rest
  end.

(** The readings drawn after the subsystems, with their eight draws. *)
Record SensorValues : Type := {
  n1 : Q; egt : Q; vibration : Q; oilPressure : Q;
  fuelFlow : Q; tankImbalance : Q; wingFlex : Q; fuselageStress : Q
}.

(** The body of the interval callback: the new subsystems and readings. *)
Definition tick (random : nat -> Q) (p : list Subsystem)
  : list Subsystem * SensorValues :=
  let k := length p in
  (jitterFrom random 0 p,
   {| n1 := rand (random k) 87 91 1;
      egt := rand (random (k + 1)%nat) 618 624 1;
      vibration := rand (random (k + 2)%nat) 0.4 0.8 1;
      oilPressure := rand (random (k + 3)%nat) 38 42 1;
      fuelFlow := rand (random (k + 4)%nat) 2.1 2.4 1;
      tankImbalance := rand (random (k + 5)%nat) 130 160 1;
      wingFlex := rand (random (k + 6)%nat) 4.1 5.2 1;
      fuselageStress := rand (random (k + 7)%nat) 42 48 1 |}).

(** The state after the ticks of a session, one source of draws per tick. *)
Definition ticks (randoms : list (nat -> Q)) (p : list Subsystem)
  : list Subsystem :=
  fold_left (fun p random => fst (tick random p)) randoms p.

(** Every draw is one [Math.random] can return. *)
Definition unit_draws (random : nat -> Q) : Prop :=
  forall i, 0 <= random i /\ random i < 1.

Definition risk_within (lo hi : Q) (s : Subsystem) : Prop :=
  within lo hi (risk s).

(** A source that always returns 0.99, and one subsystem of flight EK205. *)
Definition high_draws : nat -> Q := fun _ => 0.99.

Definition engines : Subsystem :=
  {| id := "eng"; name := "Engine Systems"; risk := Num 18;
     trend := "stable"; badge := "4 engines - 96 sensors" |}.

End Dashboard.

(* ------------------------------------------------------------------ *)
(** ** The login history in [localStorage] (lines 850-879) *)

Module Store.

(** A JSON value. *)
Local Unset Elimination Schemes.
Inductive json : Type :=
| JSNull
| JSBool (b : bool)
| JSNum (q : Q)
| JSString (s : string)
| JSArray (items : list json)
| JSObject (fields : list (string * json)).
Local Set Elimination Schemes.

(** The text of a storage item, up to what [JSON.parse] makes of it: the
    empty string, a text that parses to a value, a text that does not
    parse. *)
Inductive text : Type :=
| Blank
| Encodes (v : json)
| Garbage.

Inductive error : Type := SyntaxError | TypeError.

Inductive outcome (A : Type) : Type :=
| Done (a : A)
| Raised (e : error).
Arguments Done {A} a.
Arguments Raised {A} e.

Definition JSON_parse (t : text) : outcome json :=
  match t with
  | Encodes v => Done v
  | Blank => Raised SyntaxError
  | Garbage => Raised SyntaxError
  end.

Definition JSON_stringify (v : json) : text := Encodes v.

(** The two items the program reads and writes, [None] when [getItem]
    returns [null]. *)
Record LocalStorage : Type := {
  aerosense_login_history : option text;
  aerosense_current_user : option text
}.

(** [localStorage.getItem(key) || "[]"]: the empty string is falsy too. *)
Definition or_empty_array (item : option text) : text :=
  match item with
  | None => Encodes (JSArray [])
  | Some Blank => Encodes (JSArray [])
  | Some t => t
  end.

(** [new Date()], through the three methods the entry calls. *)
Record Clock : Type := {
  toISOString : string;
  toLocaleDateString : string;
  toLocaleTimeString : string
}.

Definition loginEntry (name : string) (isAdmin : bool) (now : Clock) : json :=
  JSObject [ ("name", JSString name); ("isAdmin", JSBool isAdmin);
             ("timestamp", JSString (toISOString now));
             ("date", JSString (toLocaleDateString now));
             ("time", JSString (toLocaleTimeString now)) ]%string.

(** [history.unshift(loginEntry); if (history.length > 100) history.pop()] *)
Definition remember (entry : json) (history : list json) : list json :=
  let history := entry :: history in
  if (100 <? length history)%nat then removelast history else history.

(** A value that is not an array has no [unshift]: calling it is a
    [TypeError]. *)
Definition saveLoginHistory (name : string) (isAdmin : bool) (now : Clock)
  (ls : LocalStorage) : outcome LocalStorage :=
  let entry := loginEntry name isAdmin now in
  match JSON_parse (or_empty_array (aerosense_login_history ls)) with
  | Raised e => Raised e
  | Done (JSArray history) =>
      Done {| aerosense_login_history :=
                Some (JSON_stringify (JSArray (remember entry history)));
              aerosense_current_user := Some (JSON_stringify entry) |}
  | Done _ => Raised TypeError
  end.

Definition getLoginHistory (ls : LocalStorage) : outcome json :=
  JSON_parse (or_empty_array (aerosense_login_history ls)).

(** [user ? JSON.parse(user) : null] *)
Definition getCurrentUser (ls : LocalStorage) : outcome json :=
  match aerosense_current_user ls with
  | None => Done JSNull
  | Some Blank => Done JSNull
  | Some t => JSON_parse t
  end.

(** [localStorage.removeItem("aerosense_current_user")] *)
Definition removeCurrentUser (ls : LocalStorage) : LocalStorage :=
  {| aerosense_login_history := aerosense_login_history ls;
     aerosense_current_user := None |}.

(** Whether a value counts as true in a condition. *)
Definition truthy (v : json) : bool :=
  match v with
  | JSNull => false
  | JSBool b => b
  | JSNum q => negb (Qeq_bool q 0)
  | JSString s => negb (String.eqb s "")
  | JSArray _ => true
  | JSObject _ => true
  end.

Fixpoint lookup (key : string) (fields : list (string * json)) : option json :=
  match fields with
  | [] => None
  | (k, v) :: rest => if String.eqb k key then Some v else lookup key rest
  end.

(** [v?.key] for a key no array or string has: [None] is [undefined]. *)
Definition get (key : string) (v : json) : option json :=
  match v with
  | JSObject fields => lookup key fields
  | _ => None
  end.

(** Saving the logins of a session one after the other, the oldest first;
    [None] once a save has thrown. *)
Fixpoint saveAll (logins : list (string * bool * Clock)) (ls : LocalStorage)
  : outcome LocalStorage :=
  match logins with
  | [] => Done ls
  | (name, isAdmin, now) :: rest =>
      match saveLoginHistory name isAdmin now ls with
      | Done ls' => saveAll rest ls'
      | Raised e => Raised e
      end
  end.

Definition empty : LocalStorage :=
  {| aerosense_login_history := None; aerosense_current_user := None |}.

Definition noon : Clock :=
  {| toISOString := "2025-01-01T12:00:00.000Z";
     toLocaleDateString := "1/1/2025";
     toLocaleTimeString := "12:00:00 PM" |}.

End Store.

(* ------------------------------------------------------------------ *)
(** ** The login form (lines 882-921) *)

Module Login.
Import Store.

Record Form : Type := {
  name : string;
  pw : string;
  error : bool;
  shake : bool;
  loading : bool
}.

(** What [setTimeout] is given: the reset of the error display after 700 ms,
    with or without [setPw("")], and [onSuccess(name, isAdmin)] after
    1200 ms. *)
Inductive Timer : Type :=
| ClearError (resetPw : bool)
| OnSuccess (name : string) (isAdmin : bool).

(** What one call of [attempt] leaves: the form, the storage, the timers it
    set, and the exception that ended it, if any. *)
Record Attempted : Type := {
  form : Form;
  storage : LocalStorage;
  timers : list Timer;
  raised : option Store.error
}.

Section Strings.

(** [String.prototype.trim] and [String.prototype.toUpperCase]. *)
Variables trim toUpperCase : string -> string.

Definition isAdminLogin (f : Form) : bool :=
  String.eqb (toUpperCase (trim (name f))) "ADMIN" && String.eqb (pw f) "sufian001".

Definition isUserLogin (f : Form) : bool :=
  String.eqb (pw f) "admin001" && negb (isAdminLogin f).

Definition attempt (now : Clock) (f : Form) (ls : LocalStorage) : Attempted :=
  let trimmedName := trim (name f) in
  if String.eqb trimmedName "" then
    {| form := {| name := name f; pw := pw f; error := true; shake := true;
                  loading := loading f |};
       storage := ls; timers := [ClearError false]; raised := None |}
  else if isAdminLogin f || isUserLogin f then
    let f := {| name := name f; pw := pw f; error := error f; shake := shake f;
                loading := true |} in
    match saveLoginHistory trimmedName (isAdminLogin f) now ls with
    | Done ls' =>
        {| form := f; storage := ls';
           timers := [OnSuccess trimmedName (isAdminLogin f)]; raised := None |}
    | Raised e =>
        {| form := f; storage := ls; timers := []; raised := Some e |}
    end
  else
    {| form := {| name := name f; pw := pw f; error := true; shake := true;
                  loading := loading f |};
       storage := ls; timers := [ClearError true]; raised := None |}.

End Strings.

(** The two string methods on ASCII text. *)
Definition is_space (c : ascii) : bool :=
  let n := nat_of_ascii c in
  ((9 <=? n)%nat && (n <=? 13)%nat) || (n =? 32)%nat.

Fixpoint trim_start (s : string) : string :=
  match s with
  | EmptyString => EmptyString
  | String c rest => if is_space c then trim_start rest else s
  end.

Fixpoint trim_end (s : string) : string :=
  match s with
  | EmptyString => EmptyString
  | String c rest =>
      let rest' := trim_end rest in
      if is_space c && String.eqb rest' "" then EmptyString else String c rest'
  end.

Definition ascii_trim (s : string) : string := trim_end (trim_start s).

Definition upper (c : ascii) : ascii :=
  let n := nat_of_ascii c in
  if (97 <=? n)%nat && (n <=? 122)%nat then ascii_of_nat (n - 32) else c.

Fixpoint ascii_upper (s : string) : string :=
  match s with
  | EmptyString => EmptyString
  | String c rest => String (upper c) (ascii_upper rest)
  end.

Definition blank_form : Form :=
  {| name := ""; pw := ""; error := false; shake := false; loading := false |}.

Definition filled (n p : string) : Form :=
  {| name := n; pw := p; error := false; shake := false; loading := false |}.

End Login.

(* ------------------------------------------------------------------ *)
(** ** The pages of the application (lines 1294-1337) *)

Module App.
Import Store Login.

Inductive Page : Type := PLogin | PSelect | PDashboard | PHistory.

(** [page], [activeFlight] (the id of the flight), [currentUser], the
    storage, and the [onSuccess] calls that accepted attempts have set a
    timer for. *)
Record State : Type := {
  page : Page;
  activeFlight : option string;
  currentUser : json;
  storage : LocalStorage;
  pending : list (string * bool)
}.

(** [currentUser?.isAdmin], as a condition. *)
Definition is_admin (user : json) : bool :=
  match get "isAdmin" user with
  | Some v => truthy v
  | None => false
  end.

(** The state after the first render and its effect:
    [const user = getCurrentUser(); if (user) setCurrentUser(user)]. *)
Definition start (ls : LocalStorage) : outcome State :=
  match getCurrentUser ls with
  | Raised e => Raised e
  | Done user =>
      Done {| page := PLogin; activeFlight := None;
              currentUser := if truthy user then user else JSNull;
              storage := ls; pending := [] |}
  end.

Inductive Event : Type :=
| Attempt (f : Form) (now : Clock)
| TimerFires (k : nat) (now : Clock)
| Select (flight : string)
| Logout
| ViewHistory
| Back.

Definition successes (ts : list Timer) : list (string * bool) :=
  flat_map (fun tm => match tm with
                      | OnSuccess n a => [(n, a)]
                      | ClearError _ => []
                      end) ts.

Section Strings.
Variables trim toUpperCase : string -> string.

(** [onSuccess(name, isAdmin)] *)
Definition onSuccess (n : string) (isAdmin : bool) (now : Clock) (st : State) : State :=
  {| page := if isAdmin then PHistory else PSelect;
     activeFlight := activeFlight st;
     currentUser := JSObject [ ("name", JSString n); ("isAdmin", JSBool isAdmin);
                               ("timestamp", JSString (toISOString now)) ]%string;
     storage := storage st; pending := pending st |}.

(** An event reaches the callback of the page that is shown; the timer of an
    accepted attempt fires whatever the page. *)
Definition step (st : State) (ev : Event) : State :=
  match ev, page st with
  | Attempt f now, PLogin =>
      let a := attempt trim toUpperCase now f (storage st) in
      {| page := page st; activeFlight := activeFlight st;
         currentUser := currentUser st;
         storage := Login.storage a;
         pending := pending st ++ successes (timers a) |}
  | TimerFires k now, _ =>
      match nth_error (pending st) k with
      | Some (n, isAdmin) =>
          onSuccess n isAdmin now
            {| page := page st; activeFlight := activeFlight st;
               currentUser := currentUser st; storage := storage st;
               pending := firstn k (pending st) ++ skipn (S k) (pending st) |}
      | None => st
      end
  | Select flight, PSelect =>
      {| page := PDashboard; activeFlight := Some flight;
         currentUser := currentUser st; storage := storage st;
         pending := pending st |}
  | Logout, PSelect =>
      {| page := PLogin; activeFlight := activeFlight st;
         currentUser := JSNull; storage := removeCurrentUser (storage st);
         pending := pending st |}
  | ViewHistory, PSelect =>
      if is_admin (currentUser st) then
        {| page := PHistory; activeFlight := activeFlight st;
           currentUser := currentUser st; storage := storage st;
           pending := pending st |}
      else st
  | Back, (PDashboard | PHistory) =>
      {| page := PSelect; activeFlight := activeFlight st;
         currentUser := currentUser st; storage := storage st;
         pending := pending st |}
  | _, _ => st
  end.

Definition run (evs : list Event) (st : State) : State := fold_left step evs st.

(** An attempt with the administrator's name and password. *)
Definition admin_attempt (ev : Event) : Prop :=
  match ev with
  | Attempt f _ =>
      toUpperCase (trim (name f)) = "ADMIN"%string /\ pw f = "sufian001"%string
  | _ => False
  end.

(** The state shows, or is about to show, something of an administrator. *)
Definition privileged (st : State) : Prop :=
  page st = PHistory \/
  (page st <> PLogin /\ is_admin (currentUser st) = true) \/
  (exists n, In (n, true) (pending st)).

End Strings.

End App.

(* ------------------------------------------------------------------ *)
(** ** Sample inputs *)

Module Samples.
Import Markers Viewer.

(** A short drag with the mouse: down at (100, 100), one move to
    (110, 103). *)
Definition press : DomEvent := MouseEvent 100 100.

(** A tap with a finger, then a frame. *)
Definition finger_tap : list BrowserEvent :=
  [ Dispatch touchstart true env0 (TouchEvent [(100, 100)]);
    Dispatch touchend true env0 (TouchEvent []);
    AnimationFrame 16 ].

(** The layer of two sensors on an unconstrained device. *)
Definition two_markers : Layer :=
  {| sGroup := markers_for false [eng1; eng2];
     sensorMeshes := cores_for false [eng1; eng2] |}.

(** A storage whose history item does not parse. *)
Definition corrupt : Store.LocalStorage :=
  {| Store.aerosense_login_history := Some Store.Garbage;
     Store.aerosense_current_user := None |}.

(** The storage after the first login of a user. *)
Definition after_first_login : Store.LocalStorage :=
  {| Store.aerosense_login_history :=
       Some (Store.Encodes (Store.JSArray [Store.loginEntry "amal" false Store.noon]));
     Store.aerosense_current_user :=
       Some (Store.Encodes (Store.loginEntry "amal" false Store.noon)) |}.

(** The application at start on an empty storage, and on the flight list
    after that first login. *)
Definition at_start : App.State :=
  {| App.page := App.PLogin; App.activeFlight := None;
     App.currentUser := Store.JSNull; App.storage := Store.empty;
     App.pending := [] |}.

Definition on_flight_list : App.State :=
  {| App.page := App.PSelect; App.activeFlight := None;
     App.currentUser := Store.loginEntry "amal" false Store.noon;
     App.storage := after_first_login; App.pending := [] |}.

(** The administrator logs in: the attempt, then its timer. *)
Definition admin_session : list App.Event :=
  [ App.Attempt (Login.filled " admin " "sufian001") Store.noon;
    App.TimerFires 0 Store.noon ].

End Samples.

(* ================================================================== *)
(** * Properties *)

Import JS.

(** ** Arithmetic of [jsnum] *)

Lemma Qltb_true (x y : Q) : Qltb x y = true <-> x < y.
Proof.
  unfold Qltb. destruct (Qlt_le_dec x y) as [H | H]; split; intro K.
  - exact H.
  - reflexivity.
  - discriminate K.
  - exfalso. apply (Qlt_irrefl y). apply Qle_lt_trans with x; assumption.
Qed.


Lemma clamp_within (v : Q) (lo hi : Q) :
  lo <= hi -> within lo hi (clamp (Num v) (Num lo) (Num hi)).
Proof.
  intro Hlh. unfold clamp, JS.min, JS.max, within.
  split.
  - apply Q.min_glb; [apply Q.le_max_r | exact Hlh].
  - apply Q.le_min_r.
Qed.

(* ------------------------------------------------------------------ *)
(** ** Risk bands *)

Section RiskBands.
Import Risk.
Local Open Scope Z_scope.

Ltac bands r :=
  unfold classification, RISK_LABEL, RISK_COLOR, RISK_COLOR_HEX;
  destruct (Z.ltb_spec r 30); [| destruct (Z.ltb_spec r 60)].

Lemma classification_total (r : Z) :
  classification r = Some (if r <? 30 then Nominal
                           else if r <? 60 then Watch else Critical).
Proof.
  unfold classification, RISK_LABEL.
  destruct (r <? 30); [reflexivity |]. destruct (r <? 60); reflexivity.
Qed.

Lemma color_agrees (r : Z) : band_of_color (RISK_COLOR r) = classification r.
Proof. bands r; reflexivity. Qed.

Lemma hex_agrees (r : Z) : band_of_hex (RISK_COLOR_HEX r) = classification r.
Proof. bands r; reflexivity. Qed.

Lemma severity_monotone (r r' : Z) (b b' : Band) :
  r <= r' -> classification r = Some b -> classification r' = Some b' ->
  severity b <= severity b'.
Proof.
  intros Hle. rewrite !classification_total.
  destruct (Z.ltb_spec r 30); [| destruct (Z.ltb_spec r 60)];
    (destruct (Z.ltb_spec r' 30); [| destruct (Z.ltb_spec r' 60)]);
    intros [= <-] [= <-]; simpl; lia.
Qed.

(** C1.  For every risk score [r] the band is nominal iff [r < 30], watch
    iff [30 <= r < 60] and critical iff [60 <= r]; so every score has exactly
    one band (no gap, on [0, 99] as anywhere else).  The text label, the CSS
    colour of the badges and the hex tint of the markers name the same band
    for every [r], and a larger score never gets a lower band. *)
Theorem risk_classification (r r' : Z) (Hle : r <= r') :
  ((classification r = Some Nominal <-> r < 30) /\
   (classification r = Some Watch <-> 30 <= r < 60) /\
   (classification r = Some Critical <-> 60 <= r)) /\
  ((RISK_LABEL r = "NOMINAL"%string <-> r < 30) /\
   (RISK_LABEL r = "WATCH"%string <-> 30 <= r < 60) /\
   (RISK_LABEL r = "CRITICAL"%string <-> 60 <= r)) /\
  ((RISK_COLOR r = "#00e5c0"%string <-> r < 30) /\
   (RISK_COLOR r = "#f5a623"%string <-> 30 <= r < 60) /\
   (RISK_COLOR r = "#ff3b5c"%string <-> 60 <= r)) /\
  ((RISK_COLOR_HEX r = 0x00e5c0 <-> r < 30) /\
   (RISK_COLOR_HEX r = 0xf5a623 <-> 30 <= r < 60) /\
   (RISK_COLOR_HEX r = 0xff3b5c <-> 60 <= r)) /\
  band_of_color (RISK_COLOR r) = classification r /\
  band_of_hex (RISK_COLOR_HEX r) = classification r /\
  exists b b', classification r = Some b /\ classification r' = Some b' /\
               severity b <= severity b'.
Proof.
  repeat match goal with |- _ /\ _ => split end.
  all: try (bands r; simpl; split; intro K; try reflexivity; try lia;
            discriminate K).
  all: try apply color_agrees; try apply hex_agrees.
  destruct (classification r) as [b |] eqn:Eb;
    [| rewrite classification_total in Eb; discriminate Eb].
  destruct (classification r') as [b' |] eqn:Eb';
    [| rewrite classification_total in Eb'; discriminate Eb'].
  exists b, b'. repeat split.
  apply (severity_monotone r r'); assumption.
Qed.

Lemma risk_classification_witness :
  29 <= 30 /\ (classification 29 = Some Nominal <-> 29 < 30).
Proof.
  split; [lia |].
  exact (proj1 (proj1 (risk_classification 29 30 ltac:(lia)))).
Defined.

End RiskBands.

(* ------------------------------------------------------------------ *)
(** ** Device detection *)

Section DeviceFacts.
Import Device.
Local Open Scope string_scope.

Lemma starts_with_ci_spec (p s : string) :
  starts_with_ci p s = true <->
  exists m rest, s = m ++ rest /\ lower_string m = lower_string p.
Proof.
  revert s. induction p as [| a p IH]; intro s; simpl.
  - split; [intros _ | reflexivity].
    exists "", s. split; reflexivity.
  - destruct s as [| b s].
    + split; [discriminate |].
      intros (m & rest & E & Hm). destruct m; simpl in *; discriminate.
    + rewrite andb_true_iff, Ascii.eqb_eq, IH. split.
      * intros (Hab & m & rest & -> & Hm).
        exists (String b m), rest. simpl. split; [reflexivity |].
        rewrite Hm, Hab. reflexivity.
      * intros (m & rest & E & Hm).
        destruct m as [| c m]; simpl in *; [discriminate |].
        injection E as -> ->. injection Hm as Hc Hm.
        split; [symmetry; exact Hc |]. exists m, rest. split; auto.
Qed.

(** The test is true exactly when some substring of the user agent equals
    the pattern up to the case of ASCII letters. *)
Lemma test_ci_spec (p s : string) :
  test_ci p s = true <->
  exists pre m post, s = pre ++ m ++ post /\ lower_string m = lower_string p.
Proof.
  split.
  - induction s as [| c s IH]; simpl; rewrite orb_true_iff.
    + intros [H | H]; [| discriminate].
      apply starts_with_ci_spec in H as (m & rest & E & Hm).
      exists "", m, rest. split; assumption.
    + intros [H | H].
      * apply starts_with_ci_spec in H as (m & rest & E & Hm).
        exists "", m, rest. split; assumption.
      * destruct (IH H) as (pre & m & post & -> & Hm).
        exists (String c pre), m, post. split; [reflexivity | exact Hm].
  - intros (pre & m & post & -> & Hm).
    induction pre as [| c pre IH]; simpl.
    + assert (K : starts_with_ci p (m ++ post) = true)
        by (apply starts_with_ci_spec; exists m, post; split; auto).
      destruct (m ++ post); simpl; rewrite K; reflexivity.
    + rewrite IH. apply orb_true_r.
Qed.

(** The handheld pattern: one of the four names occurs in the user agent,
    in any mix of upper and lower case. *)
Lemma handheld_spec (ua : string) :
  handheld ua = true <->
  exists p, In p ["iPhone"; "iPad"; "iPod"; "Android"] /\
    exists pre m post, ua = pre ++ m ++ post /\ lower_string m = lower_string p.
Proof.
  unfold handheld. rewrite !orb_true_iff, !test_ci_spec. split.
  - intros [[[K | K] | K] | K]; eexists; (split; [| exact K]); simpl; auto.
  - intros (p & Hp & K). simpl in Hp.
    destruct Hp as [<- | [<- | [<- | [<- | []]]]]; auto.
Qed.

Lemma isMobile_iff (ua : string) (w : Z) :
  isMobile ua w = true <-> (w < 768)%Z \/ handheld ua = true.
Proof.
  unfold isMobile. rewrite orb_true_iff, Z.ltb_lt. tauto.
Qed.

(** C6.  The device is constrained iff the viewport is narrower than 768 or
    the user agent matches the handheld pattern.  A constrained profile caps
    the pixel density at 1.2 instead of 2, uses 12 segments instead of 24,
    builds none of the pitot tube, intake lip rings, connector strokes and
    APU exhaust, and has a frame interval of 1000/30 ms (30 fps) instead of
    1000/60 ms (60 fps).  The profile is a function of the width and the user
    agent, through the constrained bit alone. *)
Theorem device_profile_resolution (ua : string) (w : Z) :
  let p := resolve ua w in
  (isConstrained p = true <-> (w < 768)%Z \/ handheld ua = true) /\
  (isConstrained p = true ->
     densityCap p == 1.2 /\ tessellation p = 12%Z /\
     enablePitot p = false /\ enableIntakeLip p = false /\
     enableConnectorStrokes p = false /\ enableApuExhaust p = false /\
     framesPerSecond p == 30 /\ targetFrameMillis p == 1000 / 30) /\
  (isConstrained p = false ->
     densityCap p == 2 /\ tessellation p = 24%Z /\
     enablePitot p = true /\ enableIntakeLip p = true /\
     enableConnectorStrokes p = true /\ enableApuExhaust p = true /\
     framesPerSecond p == 60 /\ targetFrameMillis p == 1000 / 60) /\
  (forall dpr : Q, exists a b,
     pixelRatio true (Num dpr) = Num a /\ pixelRatio false (Num dpr) = Num b /\
     a <= 1.2 /\ b <= 2 /\ a <= b) /\
  (forall ua' w', isMobile ua' w' = isMobile ua w -> resolve ua' w' = resolve ua w).
Proof.
  unfold resolve. cbv zeta.
  repeat match goal with |- _ /\ _ => split end.
  - apply isMobile_iff.
  - simpl. intros ->. repeat split; reflexivity.
  - simpl. intros ->. repeat split; reflexivity.
  - intro dpr. exists (Qmin dpr 1.2), (Qmin dpr 2).
    repeat split; try apply Q.le_min_r.
    apply Q.min_glb; [apply Q.le_min_l |].
    apply Qle_trans with 1.2; [apply Q.le_min_r | discriminate].
  - intros ua' w' ->. reflexivity.
Qed.

Lemma tIncrement_pos (m : bool) : 0 < tIncrement m.
Proof. destruct m; reflexivity. Qed.

Lemma idleRotation_pos (m : bool) : 0 < idleRotation m.
Proof. destruct m; reflexivity. Qed.

(** The narrow viewport of the end-to-end scenario, and a desktop. *)
Example narrow_viewport_is_constrained :
  isConstrained (resolve "Mozilla/5.0 (X11; Linux x86_64)" 400) = true /\
  isConstrained (resolve "Mozilla/5.0 (X11; Linux x86_64)" 1280) = false /\
  isConstrained (resolve "Mozilla/5.0 (Linux; ANDROID 14)" 1280) = true.
Proof. repeat split. Qed.

End DeviceFacts.

(* ------------------------------------------------------------------ *)
(** ** Emphasis tiers *)

Section EmphasisFacts.
Import Emphasis.
Local Open Scope R_scope.

Lemma phase_bounds (mobile : bool) (t : Q) (i : nat) :
  -1 <= phase mobile t i <= 1.
Proof. unfold phase. apply SIN_bound. Qed.

(** C8.  For every marker index and every frame time, on either profile:
    the ambient scale, glow opacity and emissive intensity never exceed
    1.16, 0.15 and 0.85; the hovered tier (1.3, 0.26, 1.0) is strictly above
    those bounds, and the selected tier (1.6, 0.38, 1.3) strictly above the
    hovered one, whether or not the selected marker is also hovered. *)
Theorem emphasis_tier_dominance
  (mobile : bool) (t t' t'' : Q) (i i' i'' : nat) (hov : bool) :
  (scale mobile false false t i <= 1.16 /\
   1.16 < scale mobile false true t' i' /\
   scale mobile false true t' i' < scale mobile true hov t'' i'') /\
  (opacity mobile false false t i <= 0.15 /\
   0.15 < opacity mobile false true t' i' /\
   opacity mobile false true t' i' < opacity mobile true hov t'' i'') /\
  (emissiveIntensity mobile false false t i <= 0.85 /\
   0.85 < emissiveIntensity mobile false true t' i' /\
   emissiveIntensity mobile false true t' i' <
     emissiveIntensity mobile true hov t'' i'').
Proof.
  pose proof (phase_bounds mobile t i) as [_ Hp].
  unfold scale, opacity, emissiveIntensity.
  repeat split; lra.
Qed.

End EmphasisFacts.

(* ------------------------------------------------------------------ *)
(** ** Marker construction *)

Section MarkerFacts.
Import Markers.

Lemma addSensor_positioned (mobile : bool) (s : Sensor) (l : Layer) (p : Vec3) :
  pos s = Some p ->
  addSensor mobile s l =
  Ok {| sGroup := sGroup l ++ marker_of mobile s p;
        sensorMeshes := sensorMeshes l ++
          [Core p (Risk.RISK_COLOR_HEX (risk s)) (Device.sensorDetail mobile) s] |}.
Proof.
  intro E. unfold addSensor, marker_of. rewrite E. simpl.
  destruct mobile; simpl; unfold add_child, push_mesh; simpl;
    rewrite <- ?app_assoc; reflexivity.
Qed.

Lemma addSensor_unpositioned (mobile : bool) (s : Sensor) (l : Layer) :
  pos s = None -> addSensor mobile s l = Throw TypeError.
Proof. intro E. unfold addSensor. rewrite E. reflexivity. Qed.

Lemma forEach_addSensor (mobile : bool) (sensors : list Sensor) (l : Layer) :
  forEach (addSensor mobile) sensors l =
  if forallb has_position sensors
  then Ok {| sGroup := sGroup l ++ markers_for mobile sensors;
             sensorMeshes := sensorMeshes l ++ cores_for mobile sensors |}
  else Throw TypeError.
Proof.
  revert l. induction sensors as [| s rest IH]; intro l; simpl.
  - rewrite !app_nil_r. destruct l; reflexivity.
  - unfold has_position at 1. destruct (pos s) as [p |] eqn:E.
    + rewrite (addSensor_positioned mobile s l p E). simpl. rewrite IH. simpl.
      destruct (forallb has_position rest); [| reflexivity].
      rewrite <- !app_assoc. reflexivity.
    + rewrite (addSensor_unpositioned mobile s l E). reflexivity.
Qed.

Lemma sensors_of_cores (mobile : bool) (sensors : list Sensor) :
  sensors_of (cores_for mobile sensors) = filter has_position sensors.
Proof.
  induction sensors as [| s rest IH]; simpl; [reflexivity |].
  unfold has_position at 1. destruct (pos s); simpl; rewrite IH; reflexivity.
Qed.

Lemma sensors_of_app (a b : list Object3D) :
  sensors_of (a ++ b) = sensors_of a ++ sensors_of b.
Proof.
  induction a as [| o a IH]; simpl; [reflexivity |].
  destruct (sensor_of o); simpl; rewrite IH; reflexivity.
Qed.

Lemma sensors_of_markers (mobile : bool) (sensors : list Sensor) :
  sensors_of (markers_for mobile sensors) = filter has_position sensors.
Proof.
  induction sensors as [| s rest IH]; simpl; [reflexivity |].
  unfold has_position at 1. destruct (pos s); simpl; [| exact IH].
  rewrite sensors_of_app. simpl. rewrite IH. destruct mobile; reflexivity.
Qed.

Lemma filter_all {A : Type} (f : A -> bool) (xs : list A) :
  forallb f xs = true -> filter f xs = xs.
Proof.
  induction xs as [| x xs IH]; simpl; [reflexivity |].
  rewrite andb_true_iff. intros [Hx Hxs]. rewrite Hx, (IH Hxs). reflexivity.
Qed.

(** C3, as the code has it.  Construction validates nothing.  When every
    record has a position it returns, and the layer holds one glow shell and
    one core per record, in input order, a record without an id included;
    as soon as one record has no position it throws a [TypeError] instead of
    returning a layer. *)
Theorem marker_construction (mobile : bool) (sensors : list Sensor) :
  buildMarkers mobile sensors =
    (if forallb has_position sensors
     then Ok {| sGroup := markers_for mobile sensors;
                sensorMeshes := cores_for mobile sensors |}
     else Throw TypeError) /\
  (forallb has_position sensors = true ->
     sensors_of (cores_for mobile sensors) = sensors /\
     sensors_of (markers_for mobile sensors) = sensors).
Proof.
  split.
  - unfold buildMarkers. rewrite forEach_addSensor. reflexivity.
  - intro Hall. rewrite sensors_of_cores, sensors_of_markers.
    split; apply filter_all; exact Hall.
Qed.

(** C3, as the specification words it, fails twice: a record without a
    position aborts construction, and a record without an id is not
    skipped. *)
Lemma malformed_record_not_skipped :
  ~ skips_malformed false [eng1; no_position; eng2] /\
  ~ skips_malformed false [eng1; no_id].
Proof.
  split; intros (l & E & F).
  - vm_compute in E. discriminate E.
  - vm_compute in E. injection E as <-.
    vm_compute in F. discriminate F.
Qed.

End MarkerFacts.

(* ------------------------------------------------------------------ *)
(** ** The animation step *)

Section LoopFacts.
Import Markers Viewer.

Variable mobile : bool.

Lemma throttled_scheduled (ct : Q) (v : State) (l : Loop) (p : Page) :
  lastFrameTime l = lastFrameTime (loop v) ->
  throttled mobile ct (set_loop l (set_page p v)) = throttled mobile ct v.
Proof. intro E. unfold throttled. simpl. rewrite E. reflexivity. Qed.

(** A frame that passes the test is an executed step; one that does not only
    re-arms the request. *)
Lemma animate_executed (ct : Q) (v : State) :
  throttled mobile ct v = false ->
  animate mobile ct v =
  frame mobile ct
    (set_loop {| rafId := Some (nextHandle (page v)); t := t (loop v);
                 lastFrameTime := lastFrameTime (loop v) |}
       (snd (requestAnimationFrame v))).
Proof.
  intro Hth. unfold animate, requestAnimationFrame. cbv zeta. cbn [snd].
  rewrite throttled_scheduled by reflexivity.
  cbn [loop set_page]. rewrite Hth. reflexivity.
Qed.

Lemma animate_skipped (ct : Q) (v : State) :
  throttled mobile ct v = true ->
  animate mobile ct v =
  set_loop {| rafId := Some (nextHandle (page v)); t := t (loop v);
              lastFrameTime := lastFrameTime (loop v) |}
    (snd (requestAnimationFrame v)).
Proof.
  intro Hth. unfold animate, requestAnimationFrame. cbv zeta. cbn [snd].
  rewrite throttled_scheduled by reflexivity.
  cbn [loop set_page]. rewrite Hth. reflexivity.
Qed.

Lemma desktop_never_throttled (ct : Q) (v : State) :
  mobile = false -> throttled mobile ct v = false.
Proof. intros ->. reflexivity. Qed.

Lemma frame_t (ct : Q) (v : State) :
  t (loop (frame mobile ct v)) =
  JS.add (t (loop v)) (Num (Device.tIncrement mobile)).
Proof. unfold frame. simpl. destruct (isDragging (drag v)); reflexivity. Qed.

Lemma frame_frames (ct : Q) (v : State) :
  frames (gfx (frame mobile ct v)) = S (frames (gfx v)).
Proof. unfold frame. simpl. destruct (isDragging (drag v)); reflexivity. Qed.

Lemma frame_drag_idle (ct : Q) (v : State) :
  isDragging (drag v) = false ->
  drag (frame mobile ct v) =
  {| isDragging := false; dragDist := dragDist (drag v);
     lastX := lastX (drag v); lastY := lastY (drag v);
     velX := JS.mul (velX (drag v)) (Num 0.94) |}.
Proof. intro E. unfold frame. simpl. rewrite E. reflexivity. Qed.

Lemma frame_rotation_idle (ct : Q) (v : State) :
  isDragging (drag v) = false ->
  rotation (frame mobile ct v) =
  {| rotation_y :=
       JS.add (JS.add (rotation_y (rotation v)) (JS.mul (velX (drag v)) (Num 0.94)))
              (Num (Device.idleRotation mobile));
     rotation_x := rotation_x (rotation v) |}.
Proof. intro E. unfold frame. simpl. rewrite E. reflexivity. Qed.

Lemma frame_drag_dragging (ct : Q) (v : State) :
  isDragging (drag v) = true ->
  drag (frame mobile ct v) = drag v /\ rotation (frame mobile ct v) = rotation v.
Proof. intro E. unfold frame. simpl. rewrite E. split; reflexivity. Qed.

(** An executed step, seen from the loop. *)
Lemma animate_executed_fields (ct : Q) (v : State) :
  throttled mobile ct v = false ->
  let v' := animate mobile ct v in
  t (loop v') = JS.add (t (loop v)) (Num (Device.tIncrement mobile)) /\
  frames (gfx v') = S (frames (gfx v)) /\
  (isDragging (drag v) = false ->
     isDragging (drag v') = false /\
     velX (drag v') = JS.mul (velX (drag v)) (Num 0.94) /\
     rotation_y (rotation v') =
       JS.add (JS.add (rotation_y (rotation v)) (JS.mul (velX (drag v)) (Num 0.94)))
              (Num (Device.idleRotation mobile)) /\
     rotation_x (rotation v') = rotation_x (rotation v)).
Proof.
  intro Hth. cbv zeta. rewrite (animate_executed ct v Hth).
  rewrite frame_t, frame_frames. repeat split.
  - rewrite frame_drag_idle by exact H. reflexivity.
  - rewrite frame_drag_idle by exact H. reflexivity.
  - rewrite frame_rotation_idle by exact H. reflexivity.
  - rewrite frame_rotation_idle by exact H. reflexivity.
Qed.

(** A skipped frame changes neither the accumulators nor the frame count. *)
Lemma animate_skipped_fields (ct : Q) (v : State) :
  throttled mobile ct v = true ->
  let v' := animate mobile ct v in
  t (loop v') = t (loop v) /\ frames (gfx v') = frames (gfx v) /\
  drag v' = drag v /\ rotation v' = rotation v.
Proof.
  intro Hth. cbv zeta. rewrite (animate_skipped ct v Hth).
  repeat split.
Qed.

(** *** C7: the time accumulator *)

(** C7, as the specification words it, fails: an executed step on a
    constrained device adds 0.024 to [t], one on an unconstrained device
    0.016, and 0.024 is not smaller. *)
Lemma constrained_increment_not_smaller :
  let v := created 800 600 emptyLayer in
  exists tm td : Q,
    t (loop v) = Num 0 /\
    t (loop (animate true 100 v)) = Num tm /\
    t (loop (animate false 100 v)) = Num td /\
    frames (gfx (animate true 100 v)) = S (frames (gfx v)) /\
    frames (gfx (animate false 100 v)) = S (frames (gfx v)) /\
    ~ tm < td.
Proof.
  cbv zeta. eexists. eexists.
  split; [reflexivity |].
  split; [vm_compute; reflexivity |].
  split; [vm_compute; reflexivity |].
  split; [vm_compute; reflexivity |].
  split; [vm_compute; reflexivity |].
  vm_compute. intro K. discriminate K.
Qed.

(** C7, as the code has it.  Every executed step adds a constant of the
    profile to [t], and a skipped frame adds nothing, so [t] never decreases.
    The constant is 0.024 on a constrained device and 0.016 otherwise: larger
    per step on the constrained one.  What is smaller there is the advance
    per second at the target frame rate (30 x 0.024 against 60 x 0.016) and
    the phase advance per step ([animSpeed] times the constant). *)
Theorem time_accumulator_increment (ct tq : Q) (v : State)
  (Ht : t (loop v) = Num tq) :
  (throttled mobile ct v = false ->
     exists tq', t (loop (animate mobile ct v)) = Num tq' /\
                 tq' == tq + Device.tIncrement mobile /\ tq < tq') /\
  (throttled mobile ct v = true -> t (loop (animate mobile ct v)) = Num tq) /\
  Device.tIncrement true == 0.024 /\ Device.tIncrement false == 0.016 /\
  Device.tIncrement false < Device.tIncrement true /\
  Device.targetFPS true * Device.tIncrement true <
    Device.targetFPS false * Device.tIncrement false /\
  Device.animSpeed true * Device.tIncrement true <
    Device.animSpeed false * Device.tIncrement false.
Proof.
  repeat match goal with |- _ /\ _ => split end; try reflexivity.
  - intro Hth. destruct (animate_executed_fields ct v Hth) as (E & _).
    rewrite E, Ht. simpl. eexists. split; [reflexivity |].
    split; [reflexivity |]. pose proof (tIncrement_pos mobile). lra.
  - intro Hth. destruct (animate_skipped_fields ct v Hth) as (E & _).
    rewrite E. exact Ht.
Qed.

End LoopFacts.

Lemma time_accumulator_increment_witness :
  Viewer.t (Viewer.loop (Viewer.fresh false)) = Num (0 + 0.016) /\
  Device.tIncrement false < Device.tIncrement true.
Proof.
  split; [vm_compute; reflexivity |].
  exact (proj1 (proj2 (proj2 (proj2 (proj2
    (time_accumulator_increment false 16 (0 + 0.016) (Viewer.fresh false)
       ltac:(vm_compute; reflexivity))))))).
Defined.

(* ------------------------------------------------------------------ *)
(** ** Inertia after release *)

Section Decay.

Lemma decay_succ (n : nat) : 0.94 ^ Z.of_nat (S n) == 0.94 * 0.94 ^ Z.of_nat n.
Proof.
  rewrite Nat2Z.inj_succ, <- Z.add_1_l.
  rewrite Qpower_plus by discriminate. reflexivity.
Qed.

Lemma decay_pos (n : nat) : 0 < 0.94 ^ Z.of_nat n.
Proof.
  induction n as [| n IH]; [reflexivity |].
  rewrite decay_succ. lra.
Qed.

Lemma decay_le_1 (n : nat) : 0.94 ^ Z.of_nat n <= 1.
Proof.
  induction n as [| n IH]; [discriminate |].
  rewrite decay_succ. pose proof (decay_pos n). lra.
Qed.

Lemma inject_nat_succ (n : nat) :
  inject_Z (Z.of_nat (S n)) == inject_Z (Z.of_nat n) + 1.
Proof. rewrite Nat2Z.inj_succ, <- Z.add_1_r, inject_Z_plus. reflexivity. Qed.

Lemma inject_nat_nonneg (n : nat) : 0 <= inject_Z (Z.of_nat n).
Proof. change 0 with (inject_Z 0). rewrite <- Zle_Qle. lia. Qed.

(** [(50/47)^n >= 1 + 3n/47], multiplied out. *)
Lemma decay_bernoulli (n : nat) :
  0.94 ^ Z.of_nat n * (47 + 3 * inject_Z (Z.of_nat n)) <= 47.
Proof.
  induction n as [| n IH]; [discriminate |].
  rewrite decay_succ, inject_nat_succ.
  pose proof (decay_pos n) as Ha. pose proof (inject_nat_nonneg n) as Hx.
  set (a := 0.94 ^ Z.of_nat n) in *. set (x := inject_Z (Z.of_nat n)) in *.
  nra.
Qed.

Lemma decay_vanishes (A eps : Q) :
  0 <= A -> 0 < eps ->
  exists N : nat, forall n : nat, (N <= n)%nat -> A * 0.94 ^ Z.of_nat n < eps.
Proof.
  intros HA Heps.
  set (q := 47 * A / (3 * eps)).
  exists (S (Z.to_nat (Qceiling q))). intros n Hn.
  pose proof (decay_bernoulli n) as Hb. pose proof (decay_pos n) as Ha.
  assert (Hq : q * (3 * eps) == 47 * A) by (unfold q; field; lra).
  assert (Hx : q < inject_Z (Z.of_nat n)).
  { apply Qle_lt_trans with (inject_Z (Qceiling q)); [apply Qle_ceiling |].
    rewrite <- Zlt_Qlt. lia. }
  set (a := 0.94 ^ Z.of_nat n) in *. set (x := inject_Z (Z.of_nat n)) in *.
  assert (H1 : 47 * A < 3 * x * eps) by nra.
  assert (H2 : A * (a * (47 + 3 * x)) <= A * 47) by nra.
  assert (H3 : 0 < 47 + 3 * x) by nra.
  destruct (Qlt_le_dec (A * a) eps) as [K | K]; [exact K | exfalso].
  assert (H4 : eps * (47 + 3 * x) <= (A * a) * (47 + 3 * x)) by nra.
  nra.
Qed.

Lemma Qabs_scaled (v0 a : Q) : 0 <= a -> Qabs (v0 * a) == Qabs v0 * a.
Proof. intro Ha. rewrite Qabs_Qmult, (Qabs_pos a Ha). reflexivity. Qed.

End Decay.

Section InertiaFacts.
Import Markers Viewer.

Variable mobile : bool.

Lemma animateAll_cons (ct : Q) (times : list Q) (v : State) :
  animateAll mobile (ct :: times) v = animateAll mobile times (animate mobile ct v).
Proof. reflexivity. Qed.

(** The loop left alone after a release: the velocity in closed form, the
    number of executed steps being the number of frames rendered. *)
Lemma animateAll_decay (times : list Q) :
  forall (v : State) (v0 : Q),
    isDragging (drag v) = false -> velX (drag v) = Num v0 ->
    let v' := animateAll mobile times v in
    isDragging (drag v') = false /\
    (frames (gfx v) <= frames (gfx v'))%nat /\
    (mobile = false -> (frames (gfx v') - frames (gfx v))%nat = length times) /\
    exists vn, velX (drag v') = Num vn /\
               vn == v0 * 0.94 ^ Z.of_nat (frames (gfx v') - frames (gfx v)).
Proof.
  induction times as [| ct times IH]; intros v v0 Hidle Hv; cbv zeta.
  - simpl. repeat split; auto.
    + intros _. apply Nat.sub_diag.
    + exists v0. split; [exact Hv |]. rewrite Nat.sub_diag. simpl. ring.
  - rewrite animateAll_cons.
    destruct (throttled mobile ct v) eqn:Hth.
    + destruct (animate_skipped_fields mobile ct v Hth) as (_ & Ef & Ed & _).
      destruct (IH (animate mobile ct v) v0) as (I1 & I2 & I3 & vn & I4 & I5);
        [rewrite Ed; exact Hidle | rewrite Ed; exact Hv |].
      rewrite Ef in *. repeat split; auto.
      * intro Hm. rewrite (desktop_never_throttled mobile ct v Hm) in Hth.
        discriminate Hth.
      * exists vn. split; assumption.
    + destruct (animate_executed_fields mobile ct v Hth) as (_ & Ef & K).
      destruct (K Hidle) as (Ei & Ev & _). rewrite Hv in Ev. simpl in Ev.
      destruct (IH (animate mobile ct v) (v0 * 0.94) Ei Ev)
        as (I1 & I2 & I3 & vn & I4 & I5).
      rewrite Ef in *.
      assert (En : (frames (gfx (animateAll mobile times (animate mobile ct v)))
                    - frames (gfx v))%nat
                   = S (frames (gfx (animateAll mobile times (animate mobile ct v)))
                        - S (frames (gfx v)))) by lia.
      repeat split; auto.
      * lia.
      * intro Hm. simpl. rewrite <- (I3 Hm). exact En.
      * exists vn. split; [exact I4 |].
        rewrite En, decay_succ, I5. ring.
Qed.

(** C5.  After a release that left velocity [v0], with the loop left alone:
    - after [n] executed steps the velocity is [v0 * 0.94^n] ([n] is every
      frame on an unconstrained device), it has the sign of [v0] and a
      magnitude no larger;
    - one more executed step multiplies it by 0.94, a strictly smaller
      magnitude unless it is zero, and moves [rotationY] by that new velocity
      plus the idle increment of the profile, which is positive;
    - for every positive bound, from some number of executed steps on the
      magnitude stays below the bound;
    - from some number of executed steps on, every further executed step
      increases [rotationY]: the model does not come to rest. *)
Theorem inertia_decay (v0 : Q) :
  (forall (times : list Q) (v : State),
     isDragging (drag v) = false -> velX (drag v) = Num v0 ->
     let v' := animateAll mobile times v in
     let n := (frames (gfx v') - frames (gfx v))%nat in
     exists vn, velX (drag v') = Num vn /\
       vn == v0 * 0.94 ^ Z.of_nat n /\
       (0 < v0 -> 0 < vn) /\ (v0 < 0 -> vn < 0) /\ (v0 == 0 -> vn == 0) /\
       Qabs vn <= Qabs v0 /\
       (mobile = false -> n = length times)) /\
  (forall (ct ry : Q) (v : State),
     isDragging (drag v) = false -> velX (drag v) = Num v0 ->
     rotation_y (rotation v) = Num ry -> throttled mobile ct v = false ->
     let v' := animate mobile ct v in
     exists v1 ry',
       velX (drag v') = Num v1 /\ v1 == v0 * 0.94 /\
       Qabs v1 <= Qabs v0 /\ (~ v0 == 0 -> Qabs v1 < Qabs v0) /\
       rotation_y (rotation v') = Num ry' /\
       ry' == ry + v1 + Device.idleRotation mobile /\
       0 < Device.idleRotation mobile) /\
  (forall eps : Q, 0 < eps ->
     exists N : nat, forall (times : list Q) (v : State),
       isDragging (drag v) = false -> velX (drag v) = Num v0 ->
       let v' := animateAll mobile times v in
       (N <= frames (gfx v') - frames (gfx v))%nat ->
       exists vn, velX (drag v') = Num vn /\ Qabs vn < eps) /\
  (exists N : nat, forall (times : list Q) (v : State) (ct ry : Q),
     isDragging (drag v) = false -> velX (drag v) = Num v0 ->
     let v' := animateAll mobile times v in
     (N <= frames (gfx v') - frames (gfx v))%nat ->
     rotation_y (rotation v') = Num ry -> throttled mobile ct v' = false ->
     exists ry', rotation_y (rotation (animate mobile ct v')) = Num ry' /\
                 ry < ry').
Proof.
  split; [| split; [| split]].
  - intros times v Hidle Hv. cbv zeta.
    destruct (animateAll_decay times v v0 Hidle Hv) as (_ & _ & Hn & vn & E & Hvn).
    exists vn. split; [exact E |]. split; [exact Hvn |].
    set (n := (frames (gfx (animateAll mobile times v)) - frames (gfx v))%nat) in *.
    pose proof (decay_pos n) as Hp. pose proof (decay_le_1 n) as H1.
    repeat split.
    + intro H0. rewrite Hvn. nra.
    + intro H0. rewrite Hvn. nra.
    + intro H0. rewrite Hvn, H0. ring.
    + rewrite Hvn, Qabs_scaled by lra. pose proof (Qabs_nonneg v0). nra.
    + exact Hn.
  - intros ct ry v Hidle Hv Hry Hth. cbv zeta.
    destruct (animate_executed_fields mobile ct v Hth) as (_ & _ & K).
    destruct (K Hidle) as (_ & Ev & Er & _).
    rewrite Hv in Ev, Er. rewrite Hry in Er. simpl in Ev, Er.
    eexists. eexists. split; [exact Ev |]. split; [reflexivity |].
    assert (Ha : Qabs (v0 * 0.94) == Qabs v0 * 0.94) by (apply Qabs_scaled; lra).
    pose proof (Qabs_nonneg v0) as Hnn.
    split; [rewrite Ha; lra |].
    split.
    { intro Hnz. rewrite Ha.
      assert (0 < Qabs v0).
      { destruct (Qlt_le_dec 0 (Qabs v0)) as [L | L]; [exact L |].
        exfalso. apply Hnz. revert L. apply Qabs_case; intros; lra. }
      lra. }
    split; [exact Er |].
    split; [reflexivity | apply idleRotation_pos].
  - intros eps Heps.
    destruct (decay_vanishes (Qabs v0) eps (Qabs_nonneg v0) Heps) as [N HN].
    exists N. intros times v Hidle Hv. cbv zeta. intro Hle.
    destruct (animateAll_decay times v v0 Hidle Hv) as (_ & _ & _ & vn & E & Hvn).
    exists vn. split; [exact E |].
    rewrite Hvn, Qabs_scaled by (apply Qlt_le_weak, decay_pos).
    apply HN. exact Hle.
  - destruct (decay_vanishes (Qabs v0) (Device.idleRotation mobile)
                (Qabs_nonneg v0) (idleRotation_pos mobile)) as [N HN].
    exists N. intros times v ct ry Hidle Hv. cbv zeta. intros Hle Hry Hth.
    destruct (animateAll_decay times v v0 Hidle Hv) as (Hi & _ & _ & vn & E & Hvn).
    assert (Hsmall : Qabs vn < Device.idleRotation mobile).
    { rewrite Hvn, Qabs_scaled by (apply Qlt_le_weak, decay_pos).
      apply HN. exact Hle. }
    apply Qabs_Qlt_condition in Hsmall as [Hlo Hhi].
    destruct (animate_executed_fields mobile ct _ Hth) as (_ & _ & K).
    destruct (K Hi) as (_ & _ & Er & _).
    rewrite E, Hry in Er. simpl in Er.
    eexists. split; [exact Er |].
    pose proof (idleRotation_pos mobile). lra.
Qed.

End InertiaFacts.

Lemma inertia_decay_witness :
  Viewer.isDragging (Viewer.drag (Viewer.dragged false)) = false /\
  Viewer.velX (Viewer.drag (Viewer.dragged false)) = Num (10 * 0.012) /\
  exists vn,
    Viewer.velX (Viewer.drag
      (Viewer.animateAll false [16; 33; 50] (Viewer.dragged false))) = Num vn /\
    vn == 10 * 0.012 * 0.94 ^ 3.
Proof.
  split; [reflexivity |]. split; [vm_compute; reflexivity |].
  destruct (proj1 (inertia_decay false (10 * 0.012)) [16; 33; 50]
              (Viewer.dragged false) eq_refl eq_refl)
    as (vn & E & Hvn & _).
  exists vn. split; [exact E | exact Hvn].
Defined.

(* ------------------------------------------------------------------ *)
(** ** Pointer handlers *)

Section HandlerFacts.
Import Markers Viewer.

Variables W H : Q.

Lemma getXY_finite (env : Env) (e : DomEvent) :
  carries_position e = true ->
  exists cx cy, getXY env e = (Num cx, Num cy).
Proof.
  unfold getXY. destruct e as [x y | [| [x y] ts] |]; simpl; try discriminate;
    intros _; eexists; eexists; reflexivity.
Qed.

(** A touch event whose list is empty gives no coordinates. *)
Lemma getXY_no_touch (env : Env) : getXY env (TouchEvent []) = (NaN, NaN).
Proof. reflexivity. Qed.

Lemma onDown_resets (env : Env) (e : DomEvent) (v : State) :
  dragDist (drag (onDown env e v)) = Num 0 /\
  isDragging (drag (onDown env e v)) = true /\
  selected (onDown env e v) = selected v.
Proof. unfold onDown. destruct (getXY env e). repeat split. Qed.

(** While the button or the finger is down, a move adds [|dx| + |dy|] to the
    counter. *)
Lemma onMove_accumulates (env : Env) (e : DomEvent) (v : State) (d x y cx cy : Q) :
  isDragging (drag v) = true -> dragDist (drag v) = Num d ->
  lastX (drag v) = Num x -> lastY (drag v) = Num y ->
  getXY env e = (Num cx, Num cy) ->
  dragDist (drag (onMove W H env e v)) = Num (d + (Qabs (cx - x) + Qabs (cy - y))) /\
  selected (onMove W H env e v) = selected v.
Proof.
  intros Hdr Hd Hx Hy Exy. unfold onMove. rewrite Exy, Hdr.
  destruct (has_touches e); simpl; rewrite Hd, Hx, Hy; split; reflexivity.
Qed.


(** C10.  A touch-end under the threshold reads the release coordinates
    from its list of touches and casts the ray there, with no guard of its
    own.  With no finger left the list is empty: [getXY] gives [NaN] twice,
    the point handed to the ray caster is [NaN] twice, and the selection
    becomes the first sensor that ray cast returns, or is cleared when it
    returns none.  With a finger left the ray goes through the position of
    the first finger in the list, and the selection is made there.  A tap, a
    touch-start followed by the touch-end with no finger left, selects
    exactly what the ray cast at [NaN] returns first. *)
Theorem touch_end_selection (env : Env) (v : State) (d : Q)
  (Hd : dragDist (drag v) = Num d) (Htap : d < 6) :
  (let v' := onUp W H env (TouchEvent []) v in
   getXY env (TouchEvent []) = (NaN, NaN) /\
   ndc W H NaN NaN = (NaN, NaN) /\
   match raycast env NaN NaN with
   | s :: _ => selected v' = Some s /\ selectedId (stateRef v') = id s
   | [] => selected v' = None /\ selectedId (stateRef v') = JUndefined
   end /\
   isDragging (drag v') = false) /\
  (forall (x y : Q) (rest : list (Q * Q)),
     let e := TouchEvent ((x, y) :: rest) in
     let v' := onUp W H env e v in
     let cx := x - left (rect env) in
     let cy := y - top (rect env) in
     getXY env e = (Num cx, Num cy) /\
     match intersect env (ndc W H (Num cx) (Num cy)) with
     | s :: _ => selected v' = Some s /\ selectedId (stateRef v') = id s
     | [] => selected v' = None /\ selectedId (stateRef v') = JUndefined
     end) /\
  (forall (env1 : Env) (e1 : DomEvent) (u : State),
     selected (onUp W H env (TouchEvent []) (onDown env1 e1 u))
     = match raycast env NaN NaN with s :: _ => Some s | [] => None end).
Proof.
  assert (E : forall e (w : State) (dw : Q),
     dragDist (drag w) = Num dw -> dw < 6 ->
     onUp W H env e w =
     let hits := intersect env (ndc W H (fst (getXY env e)) (snd (getXY env e))) in
     let w1 := setSelected (match hits with s :: _ => Some s | [] => None end) w in
     set_drag {| isDragging := false; dragDist := dragDist (drag w1);
                 lastX := lastX (drag w1); lastY := lastY (drag w1);
                 velX := velX (drag w1) |} w1).
  { intros e w dw Hw Hlt. apply Qltb_true in Hlt. unfold onUp.
    replace (JS.lt (dragDist (drag w)) (Num 6)) with true
      by (rewrite Hw; symmetry; exact Hlt).
    destruct (getXY env e) as [cx cy]. reflexivity. }
  assert (N : intersect env (ndc W H (fst (getXY env (TouchEvent [])))
                                     (snd (getXY env (TouchEvent []))))
              = raycast env NaN NaN) by reflexivity.
  split; [| split].
  - cbv zeta. split; [reflexivity |]. split; [reflexivity |].
    rewrite (E (TouchEvent []) v d Hd Htap). cbv zeta. rewrite N.
    destruct (raycast env NaN NaN) as [| s hits];
      (split; [split; reflexivity | reflexivity]).
  - intros x y rest. cbv zeta. split; [reflexivity |].
    rewrite (E (TouchEvent ((x, y) :: rest)) v d Hd Htap). cbv zeta.
    change (getXY env (TouchEvent ((x, y) :: rest)))
      with (Num (x - left (rect env)), Num (y - top (rect env))).
    cbn [fst snd].
    destruct (intersect env (ndc W H (Num (x - left (rect env)))
                                     (Num (y - top (rect env))))) as [| s hits];
      split; reflexivity.
  - intros env1 e1 u.
    rewrite (E (TouchEvent []) (onDown env1 e1 u) 0
               (proj1 (onDown_resets env1 e1 u)) eq_refl).
    cbv zeta. rewrite N.
    destruct (raycast env NaN NaN) as [| s hits]; reflexivity.
Qed.

(** The claim as it was written fails twice.  With a second finger still
    down the list of the touch-end is not empty, the release reads the
    position of the finger that stayed, and the sensor under it is selected,
    even by a ray caster that returns nothing for [NaN].  With no finger
    left, the selection is cleared only if the ray caster returns nothing
    for [NaN]: with one that returns a core, the tap selects its sensor. *)
Lemma touch_end_can_select :
  (dragDist (drag (onDown env_finite (TouchEvent [(100, 100); (5, 5)]) (fresh true)))
     = Num 0 /\
   selected (onUp 800 600 env_finite (TouchEvent [(5, 5)])
               (onDown env_finite (TouchEvent [(100, 100); (5, 5)]) (fresh true)))
     = Some eng1 /\
   selectedId (stateRef
     (onUp 800 600 env_finite (TouchEvent [(5, 5)])
        (onDown env_finite (TouchEvent [(100, 100); (5, 5)]) (fresh true))))
     = JStr "eng1") /\
  (dragDist (drag (onDown env0 (TouchEvent [(100, 100)]) (fresh true))) = Num 0 /\
   getXY env0 (TouchEvent []) = (NaN, NaN) /\
   selected (onUp 800 600 env0 (TouchEvent [])
               (onDown env0 (TouchEvent [(100, 100)]) (fresh true)))
     = Some eng1).
Proof. vm_compute. repeat split. Qed.

(** A whole gesture on a desktop: 13 pixels of travel, released over a
    marker, and the selection made before the gesture is still there. *)
Example drag_keeps_selection :
  let before := setSelected (Some eng2) (fresh false) in
  let after :=
    onUp 800 600 env0 (MouseEvent 110 103)
      (onMove 800 600 env0 (MouseEvent 110 103)
         (onDown env0 (MouseEvent 100 100) before)) in
  dragDist (drag after) = Num 13 /\ selected after = Some eng2 /\
  selectedId (stateRef after) = JStr "eng2".
Proof. vm_compute. repeat split. Qed.

End HandlerFacts.


Lemma touch_end_selection_witness :
  let pressed := Viewer.onDown Viewer.env_finite (Viewer.TouchEvent [(100, 100)])
                   (Viewer.fresh true) in
  Viewer.dragDist (Viewer.drag pressed) = Num 0 /\ 0 < 6 /\
  Viewer.selected
    (Viewer.onUp 800 600 Viewer.env_finite (Viewer.TouchEvent []) pressed) = None.
Proof.
  cbv zeta. split; [reflexivity |]. split; [reflexivity |].
  exact (proj1 (proj1 (proj2 (proj2 (proj1
    (touch_end_selection 800 600 Viewer.env_finite
       (Viewer.onDown Viewer.env_finite (Viewer.TouchEvent [(100, 100)])
          (Viewer.fresh true))
       0 eq_refl eq_refl)))))).
Defined.

(* ------------------------------------------------------------------ *)
(** ** The pitch stays within its bounds *)

Section PitchFacts.
Import Markers Viewer.

Variable mobile : bool.
Variables W H : Q.

Lemma Handler_eqb_eq (a b : Handler) : Handler_eqb a b = true -> a = b.
Proof. destruct a, b; simpl; intro K; try reflexivity; discriminate K. Qed.

Lemma EventType_eqb_eq (a b : EventType) : EventType_eqb a b = true -> a = b.
Proof. destruct a, b; simpl; intro K; try reflexivity; discriminate K. Qed.

Lemma onDown_steady (env : Env) (e : DomEvent) (v : State) :
  carries_position e = true -> steady v -> steady (onDown env e v).
Proof.
  intros He (_ & _ & Hr & Hl).
  destruct (getXY_finite env e He) as (cx & cy & E).
  unfold onDown. rewrite E. repeat split; try exact I; try apply Hr; exact Hl.
Qed.

Lemma onMove_steady (env : Env) (e : DomEvent) (v : State) :
  carries_position e = true -> steady v -> steady (onMove W H env e v).
Proof.
  intros He (Hx & Hy & Hr & Hl).
  destruct (getXY_finite env e He) as (cx & cy & E).
  unfold onMove. rewrite E.
  destruct (lastX (drag v)) as [x | | sx] eqn:Ex; [| destruct Hx | destruct Hx].
  destruct (lastY (drag v)) as [y | | sy] eqn:Ey; [| destruct Hy | destruct Hy].
  destruct (rotation_x (rotation v)) as [rx | | srx] eqn:Er; [| destruct Hr | destruct Hr].
  destruct (isDragging (drag v)) eqn:Hdr.
  - assert (Hc : within (-0.7) 0.7
                   (clamp (JS.add (Num rx) (JS.mul (JS.sub (Num cy) (Num y)) (Num 0.006)))
                          (Num (-0.7)) (Num 0.7)))
      by (apply clamp_within; discriminate).
    destruct (has_touches e); unfold steady; simpl; rewrite ?Ex, ?Ey, ?Er;
      repeat split; try exact I; try apply Hc; exact Hl.
  - destruct (has_touches e); unfold steady; simpl; rewrite ?Ex, ?Ey, ?Er;
      repeat split; try exact I; try apply Hr; exact Hl.
Qed.

Lemma onUp_steady (env : Env) (e : DomEvent) (v : State) :
  steady v -> steady (onUp W H env e v).
Proof.
  intros (Hx & Hy & Hr & Hl). unfold onUp.
  destruct (JS.lt (dragDist (drag v)) (Num 6)); [destruct (getXY env e) |];
    repeat split; assumption.
Qed.

Lemma onResize_steady (env : Env) (v : State) : steady v -> steady (onResize env v).
Proof. intros (Hx & Hy & Hr & Hl). repeat split; assumption. Qed.

Lemma setSelected_steady (s : option Sensor) (v : State) :
  steady v -> steady (setSelected s v).
Proof. intros (Hx & Hy & Hr & Hl). repeat split; assumption. Qed.

Lemma animate_steady (ct : Q) (v : State) : steady v -> steady (animate mobile ct v).
Proof.
  intros (Hx & Hy & Hr & Hl).
  destruct (throttled mobile ct v) eqn:Hth.
  - rewrite (animate_skipped mobile ct v Hth). repeat split; assumption.
  - rewrite (animate_executed mobile ct v Hth). unfold frame. simpl.
    destruct (isDragging (drag v)); repeat split; assumption.
Qed.

Lemma invoke_steady (h : Handler) (env : Env) (e : DomEvent) (v : State) :
  (h = HDown \/ h = HMove -> carries_position e = true) ->
  steady v -> steady (invoke W H h env e v).
Proof.
  intros He Hv. destruct h; simpl.
  - apply onDown_steady; auto.
  - apply onMove_steady; auto.
  - apply onUp_steady; auto.
  - apply onResize_steady; auto.
Qed.

Lemma event_ok_position (ty : EventType) (b : bool) (env : Env) (e : DomEvent) :
  event_ok (Dispatch ty b env e) = true ->
  handler_for ty = HDown \/ handler_for ty = HMove ->
  carries_position e = true.
Proof.
  destruct ty, e as [x y | [| p ts] |]; simpl; intros Hok [K | K];
    try reflexivity; try discriminate Hok; discriminate K.
Qed.

Lemma fold_invoke_steady (env : Env) (e : DomEvent) (ty : EventType)
  (ls : list Listener) :
  (handler_for ty = HDown \/ handler_for ty = HMove -> carries_position e = true) ->
  (forall l, In l ls -> handler l = handler_for ty) ->
  forall v, steady v ->
    steady (fold_left (fun v l => invoke W H (handler l) env e v) ls v).
Proof.
  intros He. induction ls as [| l ls IH]; intros Hls v Hv; simpl; [exact Hv |].
  apply IH.
  - intros k Hk. apply Hls. right. exact Hk.
  - apply invoke_steady; [| exact Hv].
    rewrite (Hls l (or_introl eq_refl)). exact He.
Qed.

Lemma dispatch_steady (ty : EventType) (b : bool) (env : Env) (e : DomEvent)
  (v : State) :
  event_ok (Dispatch ty b env e) = true -> steady v ->
  steady (dispatch W H ty b env e v).
Proof.
  intros Hok Hv. unfold dispatch.
  apply fold_invoke_steady with (ty := ty); [| | exact Hv].
  - apply (event_ok_position ty b env e Hok).
  - intros l Hl. apply filter_In in Hl as [Hin Hh].
    destruct Hv as (_ & _ & _ & Hreg).
    rewrite forallb_forall in Hreg. specialize (Hreg l Hin).
    unfold registered in Hreg. apply Handler_eqb_eq in Hreg.
    unfold hears in Hh. apply andb_true_iff in Hh as [Hty _].
    apply EventType_eqb_eq in Hty. rewrite Hreg, Hty. reflexivity.
Qed.

Lemma fold_animate_steady (ct : Q) (owed : list nat) :
  forall v, steady v ->
    steady (fold_left (fun v (_ : nat) => animate mobile ct v) owed v).
Proof.
  induction owed as [| h owed IH]; intros v Hv; simpl; [exact Hv |].
  apply IH. apply animate_steady. exact Hv.
Qed.

Lemma runFrame_steady (ct : Q) (v : State) :
  steady v -> steady (runFrame mobile ct v).
Proof.
  intros (Hx & Hy & Hr & Hl). unfold runFrame.
  apply fold_animate_steady. repeat split; assumption.
Qed.

Lemma step_steady (v : State) (ev : BrowserEvent) :
  event_ok ev = true -> steady v -> steady (step mobile W H v ev).
Proof.
  intros Hok Hv. destruct ev as [ty b env e | ct | s]; simpl.
  - apply dispatch_steady; assumption.
  - apply runFrame_steady; assumption.
  - apply setSelected_steady; assumption.
Qed.

Lemma run_steady (evs : list BrowserEvent) :
  forall v, forallb event_ok evs = true -> steady v ->
    steady (run mobile W H evs v).
Proof.
  induction evs as [| ev evs IH]; intros v Hok Hv; simpl; [exact Hv |].
  simpl in Hok. apply andb_true_iff in Hok as [Hev Hevs].
  apply IH; [exact Hevs |]. apply step_steady; assumption.
Qed.

Lemma mount_steady (sensors : list Sensor) (v0 : State) :
  mountEffect mobile W H sensors = Ok v0 -> steady v0.
Proof.
  unfold mountEffect. destruct (buildMarkers mobile sensors) as [l | x]; simpl;
    [| discriminate].
  intros [= <-]. unfold steady.
  destruct mobile; simpl; repeat split; try exact I; discriminate.
Qed.

(** C4.  From the state the effect leaves, whatever the browser then
    delivers (pointer and touch events, frames, resizes, selections from the
    list), the pitch of the aircraft group is a number between -0.7 and 0.7.
    The events are those a browser can deliver: a touch that starts or moves
    is in its event's list of touches. *)
Theorem rotationX_within_bounds
  (sensors : list Sensor) (v0 : State) (evs : list BrowserEvent)
  (Hmount : mountEffect mobile W H sensors = Ok v0)
  (Hevs : forallb event_ok evs = true) :
  within (-0.7) 0.7 (rotation_x (rotation (run mobile W H evs v0))).
Proof.
  destruct (run_steady evs v0 Hevs (mount_steady sensors v0 Hmount))
    as (_ & _ & Hr & _).
  exact Hr.
Qed.

End PitchFacts.

Lemma rotationX_within_bounds_witness :
  Viewer.mountEffect false 800 600 [Markers.eng1; Markers.eng2]
    = Ok (Viewer.fresh false) /\
  forallb Viewer.event_ok Viewer.long_drag = true /\
  within (-0.7) 0.7
    (Viewer.rotation_x (Viewer.rotation
       (Viewer.run false 800 600 Viewer.long_drag (Viewer.fresh false)))).
Proof.
  split; [reflexivity |]. split; [reflexivity |].
  exact (rotationX_within_bounds false 800 600 [Markers.eng1; Markers.eng2]
           (Viewer.fresh false) Viewer.long_drag eq_refl eq_refl).
Defined.

(** The hypothesis on the events is needed by the model only: a touch-move
    whose list of touches were empty, which no browser delivers, would put
    [NaN] through the clamp. *)
Example clamp_of_NaN :
  Viewer.rotation_x (Viewer.rotation
    (Viewer.run false 800 600
       [Viewer.Dispatch Viewer.touchstart true Viewer.env0 (Viewer.TouchEvent [(1, 1)]);
        Viewer.Dispatch Viewer.touchmove true Viewer.env0 (Viewer.TouchEvent [])]
       (Viewer.fresh false))) = NaN.
Proof. reflexivity. Qed.

(** The drag of the witness would pitch the model by 5.4 radians; the clamp
    leaves it at 0.7. *)
Example long_drag_hits_the_bound :
  Viewer.rotation_x (Viewer.rotation
    (Viewer.run false 800 600 Viewer.long_drag (Viewer.fresh false))) = Num 0.7.
Proof. vm_compute. reflexivity. Qed.

(* ------------------------------------------------------------------ *)
(** ** Teardown *)

Section TeardownFacts.
Import Markers Viewer.

Variable mobile : bool.
Variables W H : Q.

Lemma fold_left_preserves {A B : Type} (P : A -> Prop) (f : A -> B -> A)
  (bs : list B) :
  (forall a b, P a -> P (f a b)) -> forall a, P a -> P (fold_left f bs a).
Proof.
  intro Hf. induction bs as [| b bs IH]; intros a Ha; simpl; [exact Ha |].
  apply IH. apply Hf. exact Ha.
Qed.

Lemma invoke_live (h : Handler) (env : Env) (e : DomEvent) (v : State) :
  live v -> live (invoke W H h env e v).
Proof.
  intros (Hl & k & Hr & Hf).
  destruct h; simpl.
  - unfold onDown. destruct (getXY env e). split; [exact Hl |]. exists k. auto.
  - unfold onMove. destruct (getXY env e) as [cx cy].
    destruct (isDragging (drag v)), (has_touches e); simpl;
      (split; [exact Hl |]); exists k; auto.
  - unfold onUp. destruct (JS.lt (dragDist (drag v)) (Num 6));
      [destruct (getXY env e) |]; (split; [exact Hl |]); exists k; auto.
  - split; [exact Hl |]. exists k. auto.
Qed.

Lemma animate_page (ct : Q) (v : State) :
  listeners (page (animate mobile ct v)) = listeners (page v) /\
  rafId (loop (animate mobile ct v)) = Some (nextHandle (page v)) /\
  frameRequests (page (animate mobile ct v)) =
    frameRequests (page v) ++ [nextHandle (page v)] /\
  canvasAttached (page (animate mobile ct v)) = canvasAttached (page v) /\
  disposed (gfx (animate mobile ct v)) = disposed (gfx v).
Proof.
  destruct (throttled mobile ct v) eqn:Hth.
  - rewrite (animate_skipped mobile ct v Hth). repeat split.
  - rewrite (animate_executed mobile ct v Hth). unfold frame. simpl.
    destruct (isDragging (drag v)); repeat split.
Qed.

Lemma runFrame_live (ct : Q) (v : State) : live v -> live (runFrame mobile ct v).
Proof.
  intros (Hl & k & Hr & Hf). unfold runFrame. rewrite Hf. simpl.
  match goal with |- live (animate mobile ct ?u) =>
    destruct (animate_page ct u) as (A1 & A2 & A3 & _) end.
  simpl in A1, A2, A3.
  split; [rewrite A1; exact Hl |].
  eexists. split; [exact A2 | exact A3].
Qed.

Lemma step_live (v : State) (ev : BrowserEvent) :
  live v -> live (step mobile W H v ev).
Proof.
  intro Hv. destruct ev as [ty b env e | ct | s]; simpl.
  - unfold dispatch.
    apply (fold_left_preserves live); [| exact Hv].
    intros a l Ha. apply invoke_live. exact Ha.
  - apply runFrame_live. exact Hv.
  - destruct Hv as (Hl & k & Hr & Hf). split; [exact Hl |]. exists k. auto.
Qed.

Lemma run_live (evs : list BrowserEvent) (v : State) :
  live v -> live (run mobile W H evs v).
Proof.
  intro Hv. unfold run. apply (fold_left_preserves live); [| exact Hv].
  intros a ev Ha. apply step_live. exact Ha.
Qed.

Lemma mount_live (sensors : list Sensor) (v0 : State) :
  mountEffect mobile W H sensors = Ok v0 -> live v0.
Proof.
  unfold mountEffect. destruct (buildMarkers mobile sensors) as [l | x]; simpl;
    [| discriminate].
  intros [= <-].
  destruct mobile; (split; [reflexivity |]); exists 1%nat; split; reflexivity.
Qed.

(** While the viewer is mounted the loop is alive: on an unconstrained
    device every frame the browser delivers is rendered. *)
Lemma live_frame_renders (ct : Q) (v : State) :
  mobile = false -> live v ->
  frames (gfx (runFrame mobile ct v)) = S (frames (gfx v)).
Proof.
  intros Hm (Hl & k & Hr & Hf). unfold runFrame. rewrite Hf. simpl.
  match goal with |- frames (gfx (animate mobile ct ?u)) = _ =>
    destruct (animate_executed_fields mobile ct u
                (desktop_never_throttled mobile ct u Hm)) as (_ & E & _) end.
  rewrite E. reflexivity.
Qed.

Lemma cleanup_live (v : State) :
  live v ->
  exists v', cleanup v = Ok v' /\ torn_down v' /\
             frames (gfx v') = frames (gfx v) /\
             drag v' = drag v /\ rotation v' = rotation v /\
             selected v' = selected v.
Proof.
  intros (Hl & k & Hr & Hf).
  destruct v as [d r l sr sel [ls fr nh ca cu] g ly]. simpl in *. subst ls fr.
  unfold cleanup. simpl. rewrite Hr. simpl. rewrite Nat.eqb_refl. simpl.
  destruct ca; simpl; eexists; (split; [reflexivity |]);
    repeat split; reflexivity.
Qed.

(** A second cleanup finds nothing to cancel, nothing to remove, no canvas
    to detach: it returns the state it was given. *)
Lemma cleanup_torn_down (v : State) : torn_down v -> cleanup v = Ok v.
Proof.
  intros (Hl & Hf & Hc & Hd).
  destruct v as [d r l sr sel [ls fr nh ca cu] [a sz dis fm] ly].
  simpl in *. subst ls fr ca dis.
  unfold cleanup. destruct l as [[k |] tt lf]; reflexivity.
Qed.

Lemma dispatch_torn_down (ty : EventType) (b : bool) (env : Env) (e : DomEvent)
  (v : State) :
  torn_down v -> dispatch W H ty b env e v = v.
Proof. intros (Hl & _). unfold dispatch. rewrite Hl. reflexivity. Qed.

Lemma runFrame_torn_down (ct : Q) (v : State) :
  torn_down v -> runFrame mobile ct v = v.
Proof.
  intros (Hl & Hf & Hc & Hd). unfold runFrame. rewrite Hf.
  destruct v as [d r l sr sel [ls fr nh ca cu] g ly]. simpl in *. subst fr.
  reflexivity.
Qed.

Lemma step_torn_down (v : State) (ev : BrowserEvent) :
  torn_down v ->
  torn_down (step mobile W H v ev) /\ gfx (step mobile W H v ev) = gfx v.
Proof.
  intro Hv. destruct ev as [ty b env e | ct | s]; simpl.
  - rewrite dispatch_torn_down by exact Hv. split; [exact Hv | reflexivity].
  - rewrite runFrame_torn_down by exact Hv. split; [exact Hv | reflexivity].
  - split; [exact Hv | reflexivity].
Qed.

Lemma run_torn_down (evs : list BrowserEvent) :
  forall v, torn_down v ->
    torn_down (run mobile W H evs v) /\ gfx (run mobile W H evs v) = gfx v.
Proof.
  induction evs as [| ev evs IH]; intros v Hv; [split; auto |].
  change (run mobile W H (ev :: evs) v)
    with (run mobile W H evs (step mobile W H v ev)).
  destruct (step_torn_down v ev Hv) as [Ht Hg].
  destruct (IH _ Ht) as [Ht' Hg']. split; [exact Ht' |].
  rewrite Hg'. exact Hg.
Qed.

Lemma onResize_torn_down (env : Env) (v : State) :
  torn_down v ->
  torn_down (onResize env v) /\
  frames (gfx (onResize env v)) = frames (gfx v).
Proof. intros (Hl & Hf & Hc & Hd). repeat split; assumption. Qed.

(** C9.  Whatever happened since the mount, the cleanup returns without an
    exception; after it no frame callback is owed, no listener is
    registered, the canvas is detached and the renderer disposed, and it
    rendered nothing itself.  From then on nothing the browser delivers
    reaches the viewer, so no frame is rendered, and a resize notification
    changes nothing.  A second cleanup returns without an exception and
    changes nothing; the resize handler called directly renders nothing,
    and a cleanup after it still returns. *)
Theorem teardown_is_final
  (sensors : list Sensor) (v0 : State) (evs : list BrowserEvent)
  (Hmount : mountEffect mobile W H sensors = Ok v0) :
  exists v',
    cleanup (run mobile W H evs v0) = Ok v' /\
    torn_down v' /\
    frames (gfx v') = frames (gfx (run mobile W H evs v0)) /\
    (forall evs', frames (gfx (run mobile W H evs' v')) = frames (gfx v')) /\
    (forall ty b env e, dispatch W H ty b env e v' = v') /\
    (forall ct, runFrame mobile ct v' = v') /\
    cleanup v' = Ok v' /\
    (forall env,
       frames (gfx (onResize env v')) = frames (gfx v') /\
       cleanup (onResize env v') = Ok (onResize env v')).
Proof.
  destruct (cleanup_live (run mobile W H evs v0)
              (run_live evs v0 (mount_live sensors v0 Hmount)))
    as (v' & E & Ht & Hf & _).
  exists v'. split; [exact E |]. split; [exact Ht |]. split; [exact Hf |].
  split; [| split; [| split; [| split]]].
  - intro evs'. destruct (run_torn_down evs' v' Ht) as [_ Hg].
    rewrite Hg. reflexivity.
  - intros ty b env e. apply dispatch_torn_down. exact Ht.
  - intro ct. apply runFrame_torn_down. exact Ht.
  - apply cleanup_torn_down. exact Ht.
  - intro env. destruct (onResize_torn_down env v' Ht) as [Ht' Hfr].
    split; [exact Hfr |]. apply cleanup_torn_down. exact Ht'.
Qed.

End TeardownFacts.

Lemma teardown_is_final_witness :
  Viewer.mountEffect false 800 600 [Markers.eng1; Markers.eng2]
    = Ok (Viewer.fresh false) /\
  exists v',
    Viewer.cleanup (Viewer.run false 800 600 Viewer.long_drag (Viewer.fresh false))
      = Ok v' /\
    Viewer.torn_down v' /\ Viewer.cleanup v' = Ok v'.
Proof.
  split; [reflexivity |].
  destruct (teardown_is_final false 800 600 [Markers.eng1; Markers.eng2]
              (Viewer.fresh false) Viewer.long_drag eq_refl)
    as (v' & E & Ht & _ & _ & _ & _ & E2 & _).
  exists v'. split; [exact E |]. split; [exact Ht | exact E2].
Defined.

(* ================================================================== *)
(** * Further properties of the viewer *)

Section GestureFacts.
Import Markers Viewer Session.

Variables W H : Q.









End GestureFacts.

Section SessionFacts.
Import Markers Viewer Session.

Variable mobile : bool.
Variables W H : Q.

(** *** The frame callback is owed once *)

Lemma invoke_running (h : Handler) (env : Env) (e : DomEvent) (v : State) :
  running v -> running (invoke W H h env e v).
Proof.
  intros (Hl & Ha & Hd & k & Hr & Hf & Hk).
  destruct h; simpl.
  - unfold onDown. destruct (getXY env e).
    repeat split; auto. exists k. auto.
  - unfold onMove. destruct (getXY env e) as [cx cy].
    destruct (isDragging (drag v)), (has_touches e); simpl;
      repeat split; auto; exists k; auto.
  - unfold onUp. destruct (JS.lt (dragDist (drag v)) (Num 6));
      [destruct (getXY env e) |]; repeat split; auto; exists k; auto.
  - repeat split; auto. exists k. auto.
Qed.

Lemma runFrame_running (ct : Q) (v : State) :
  running v -> running (runFrame mobile ct v).
Proof.
  intros (Hl & Ha & Hd & k & Hr & Hf & Hk). unfold runFrame. rewrite Hf. simpl.
  match goal with |- running (animate mobile ct ?u) =>
    destruct (animate_page mobile ct u) as (A1 & A2 & A3 & A4 & A5);
    assert (A6 : nextHandle (page (animate mobile ct u)) = S (nextHandle (page u)))
  end.
  { destruct (throttled mobile ct
               (set_page {| listeners := listeners (page v); frameRequests := [];
                            nextHandle := nextHandle (page v);
                            canvasAttached := canvasAttached (page v);
                            cursor := cursor (page v) |} v)) eqn:Hth.
    - rewrite (animate_skipped mobile ct _ Hth). reflexivity.
    - rewrite (animate_executed mobile ct _ Hth). unfold frame. simpl.
      destruct (isDragging (drag v)); reflexivity. }
  simpl in A1, A2, A3, A4, A5, A6.
  split; [rewrite A1; exact Hl |]. split; [rewrite A4; exact Ha |].
  split; [rewrite A5; exact Hd |].
  eexists. split; [exact A2 |]. split; [exact A3 |]. rewrite A6. lia.
Qed.

Lemma step_running (v : State) (ev : BrowserEvent) :
  running v -> running (step mobile W H v ev).
Proof.
  intro Hv. destruct ev as [ty b env e | ct | s]; simpl.
  - unfold dispatch. apply (fold_left_preserves running); [| exact Hv].
    intros a l Ha. apply invoke_running. exact Ha.
  - apply runFrame_running. exact Hv.
  - destruct Hv as (Hl & Ha & Hd & k & Hr & Hf & Hk).
    repeat split; auto. exists k. auto.
Qed.

Lemma mount_running (sensors : list Sensor) (v0 : State) :
  mountEffect mobile W H sensors = Ok v0 -> running v0.
Proof.
  unfold mountEffect. destruct (buildMarkers mobile sensors) as [l | x]; simpl;
    [| discriminate].
  intros [= <-]. unfold running.
  destruct mobile;
    (split; [reflexivity |]); (split; [reflexivity |]); (split; [reflexivity |]);
    exists 1%nat; (split; [reflexivity |]); (split; [reflexivity |]);
    simpl; lia.
Qed.

(** X3.  Between the mount and the cleanup, whatever the browser delivers:
    the viewer's eight listeners are registered and no other, the canvas is
    in the page, the renderer is not disposed, and exactly one frame
    callback is owed, under the handle [rafId] holds, which no later
    request will be given again. *)
Theorem one_frame_callback_owed
  (sensors : list Sensor) (v0 : State) (evs : list BrowserEvent)
  (Hmount : mountEffect mobile W H sensors = Ok v0) :
  let v := run mobile W H evs v0 in
  listeners (page v) = registered_listeners /\
  canvasAttached (page v) = true /\ disposed (gfx v) = false /\
  exists h, rafId (loop v) = Some h /\ frameRequests (page v) = [h] /\
            (h < nextHandle (page v))%nat.
Proof.
  cbv zeta. unfold run.
  apply (fold_left_preserves running (step mobile W H) evs).
  - intros a ev Ha. apply step_running. exact Ha.
  - apply (mount_running sensors). exact Hmount.
Qed.

(** *** The time accumulator counts frames *)

Lemma animate_clocked (ct : Q) (v : State) :
  clocked mobile v -> clocked mobile (animate mobile ct v).
Proof.
  unfold clocked. intro Ht.
  destruct (throttled mobile ct v) eqn:Hth.
  - destruct (animate_skipped_fields mobile ct v Hth) as (E1 & E2 & _).
    rewrite E1, E2. exact Ht.
  - destruct (animate_executed_fields mobile ct v Hth) as (E1 & E2 & _).
    rewrite E1, E2, Ht. reflexivity.
Qed.

Lemma invoke_clocked (h : Handler) (env : Env) (e : DomEvent) (v : State) :
  clocked mobile v -> clocked mobile (invoke W H h env e v).
Proof.
  unfold clocked. intro Ht.
  destruct h; simpl.
  - unfold onDown. destruct (getXY env e). exact Ht.
  - unfold onMove. destruct (getXY env e) as [cx cy].
    destruct (isDragging (drag v)), (has_touches e); simpl; exact Ht.
  - unfold onUp. destruct (JS.lt (dragDist (drag v)) (Num 6));
      [destruct (getXY env e) |]; exact Ht.
  - exact Ht.
Qed.

Lemma step_clocked (v : State) (ev : BrowserEvent) :
  clocked mobile v -> clocked mobile (step mobile W H v ev).
Proof.
  intro Hv. destruct ev as [ty b env e | ct | s]; simpl.
  - unfold dispatch. apply (fold_left_preserves (clocked mobile)); [| exact Hv].
    intros a l Ha. apply invoke_clocked. exact Ha.
  - unfold runFrame.
    apply (fold_left_preserves (clocked mobile)).
    + intros a k Ha. apply animate_clocked. exact Ha.
    + exact Hv.
  - exact Hv.
Qed.

Lemma mount_clocked (sensors : list Sensor) (v0 : State) :
  mountEffect mobile W H sensors = Ok v0 -> clocked mobile v0.
Proof.
  unfold mountEffect. destruct (buildMarkers mobile sensors) as [l | x]; simpl;
    [| discriminate].
  intros [= <-]. unfold clocked.
  destruct mobile; reflexivity.
Qed.

Lemma accumulated_finite (n : nat) : finite (accumulated mobile n).
Proof.
  induction n as [| n IH]; [exact I |].
  change (accumulated mobile (S n))
    with (JS.add (accumulated mobile n) (Num (Device.tIncrement mobile))).
  destruct (accumulated mobile n); [exact I | destruct IH | destruct IH].
Qed.

(** X4.  At any moment of a session the time accumulator is what adding the
    increment of the profile to 0 gives, once for each frame rendered since
    the mount and in that order: frames that are skipped, and handlers,
    never advance it.  It is a number throughout. *)
Theorem time_counts_rendered_frames
  (sensors : list Sensor) (v0 : State) (evs : list BrowserEvent)
  (Hmount : mountEffect mobile W H sensors = Ok v0) :
  let v := run mobile W H evs v0 in
  t (loop v) = accumulated mobile (frames (gfx v)) /\
  finite (t (loop v)).
Proof.
  cbv zeta.
  assert (K : clocked mobile (run mobile W H evs v0)).
  { unfold run.
    apply (fold_left_preserves (clocked mobile) (step mobile W H) evs).
    - intros a ev Ha. apply step_clocked. exact Ha.
    - apply (mount_clocked sensors). exact Hmount. }
  split; [exact K |]. rewrite K. apply accumulated_finite.
Qed.

(** *** Hover *)

Lemma invoke_hover_shown (h : Handler) (env : Env) (e : DomEvent) (v : State) :
  hover_shown v -> hover_shown (invoke W H h env e v).
Proof.
  intro Hv. destruct h; simpl.
  - unfold onDown. destruct (getXY env e). exact Hv.
  - unfold onMove. destruct (getXY env e) as [cx cy].
    destruct (has_touches e).
    + destruct (isDragging (drag v)); exact Hv.
    + destruct (intersect env (ndc W H cx cy)) as [| s hits];
        destruct (isDragging (drag v)); simpl;
        solve [left; split; reflexivity | right; reflexivity].
  - unfold onUp. destruct (JS.lt (dragDist (drag v)) (Num 6));
      [destruct (getXY env e) |]; exact Hv.
  - exact Hv.
Qed.

Lemma step_hover_shown (v : State) (ev : BrowserEvent) :
  hover_shown v -> hover_shown (step mobile W H v ev).
Proof.
  intro Hv. destruct ev as [ty b env e | ct | s]; simpl.
  - unfold dispatch. apply (fold_left_preserves hover_shown); [| exact Hv].
    intros a l Ha. apply invoke_hover_shown. exact Ha.
  - unfold runFrame. apply (fold_left_preserves hover_shown).
    + intros a k Ha.
      destruct (throttled mobile ct a) eqn:Hth.
      * rewrite (animate_skipped mobile ct a Hth). exact Ha.
      * rewrite (animate_executed mobile ct a Hth). unfold frame. simpl.
        destruct (isDragging (drag a)); exact Ha.
    + exact Hv.
  - exact Hv.
Qed.

Lemma mount_hover (sensors : list Sensor) (v0 : State) :
  mountEffect mobile W H sensors = Ok v0 ->
  cursor (page v0) = "grab"%string /\ hoveredId (stateRef v0) = JNull.
Proof.
  unfold mountEffect. destruct (buildMarkers mobile sensors) as [l | x]; simpl;
    [| discriminate].
  intros [= <-]. destruct mobile; split; reflexivity.
Qed.

(** X5.  Throughout a session the cursor over the viewer is one of the two
    hands, and while it is the grab hand no sensor is hovered: the hovered
    id is [null], so no marker is drawn in the hovered tier. *)
Theorem grab_cursor_means_no_hover
  (sensors : list Sensor) (v0 : State) (evs : list BrowserEvent)
  (Hmount : mountEffect mobile W H sensors = Ok v0) :
  let v := run mobile W H evs v0 in
  (cursor (page v) = "grab"%string \/ cursor (page v) = "pointer"%string) /\
  (cursor (page v) = "grab"%string ->
     hoveredId (stateRef v) = JNull /\
     forall s, JS.strict_eq (id s) JNull = false ->
               Emphasis.isHov (stateRef v) s = false).
Proof.
  cbv zeta.
  assert (Hs : hover_shown (run mobile W H evs v0)).
  { unfold run.
    apply (fold_left_preserves hover_shown (step mobile W H) evs).
    - intros a ev Ha. apply step_hover_shown. exact Ha.
    - left. apply (mount_hover sensors). exact Hmount. }
  split.
  - destruct Hs as [[Hc _] | Hc]; [left | right]; exact Hc.
  - intro Hg. destruct Hs as [[_ Hn] | Hc].
    + split; [exact Hn |]. intros s Hid. unfold Emphasis.isHov. rewrite Hn. exact Hid.
    + rewrite Hg in Hc. discriminate Hc.
Qed.

Lemma hears_resize (b : bool) :
  filter (hears resize b) registered_listeners = [L TWindow resize HResize].
Proof. destruct b; reflexivity. Qed.

Lemma invoke_touch_no_hover (h : Handler) (env : Env) (ts : list (Q * Q)) (v : State) :
  hoveredId (stateRef (invoke W H h env (TouchEvent ts) v)) = hoveredId (stateRef v) /\
  cursor (page (invoke W H h env (TouchEvent ts) v)) = cursor (page v) /\
  listeners (page (invoke W H h env (TouchEvent ts) v)) = listeners (page v).
Proof.
  destruct h; simpl.
  - unfold onDown. destruct (getXY env (TouchEvent ts)). repeat split.
  - unfold onMove. destruct (getXY env (TouchEvent ts)) as [cx cy].
    cbn [has_touches]. destruct (isDragging (drag v)); repeat split.
  - unfold onUp. destruct (JS.lt (dragDist (drag v)) (Num 6));
      [destruct (getXY env (TouchEvent ts)) |]; repeat split.
  - repeat split.
Qed.

Lemma animate_no_hover (ct : Q) (v : State) :
  hoveredId (stateRef (animate mobile ct v)) = hoveredId (stateRef v) /\
  cursor (page (animate mobile ct v)) = cursor (page v) /\
  listeners (page (animate mobile ct v)) = listeners (page v).
Proof.
  destruct (throttled mobile ct v) eqn:Hth.
  - rewrite (animate_skipped mobile ct v Hth). repeat split.
  - rewrite (animate_executed mobile ct v Hth). unfold frame. simpl.
    destruct (isDragging (drag v)); repeat split.
Qed.

Lemma step_no_mouse (x : jsval) (c : string) (v : State) (ev : BrowserEvent) :
  no_mouse ev = true ->
  listeners (page v) = registered_listeners ->
  hoveredId (stateRef v) = x -> cursor (page v) = c ->
  listeners (page (step mobile W H v ev)) = registered_listeners /\
  hoveredId (stateRef (step mobile W H v ev)) = x /\
  cursor (page (step mobile W H v ev)) = c.
Proof.
  intros Hev Hl Hx Hc.
  set (P := fun u : State => listeners (page u) = registered_listeners /\
                             hoveredId (stateRef u) = x /\ cursor (page u) = c).
  assert (Hv : P v) by (repeat split; assumption).
  change (P (step mobile W H v ev)).
  destruct ev as [ty b env e | ct | s]; simpl.
  - destruct e as [mx my | ts |].
    + destruct ty; simpl in Hev; try discriminate Hev.
      unfold dispatch. rewrite Hl, hears_resize. simpl. exact Hv.
    + unfold dispatch. apply (fold_left_preserves P); [| exact Hv].
      intros a l (A1 & A2 & A3).
      destruct (invoke_touch_no_hover (handler l) env ts a) as (B1 & B2 & B3).
      unfold P. rewrite B1, B2, B3. repeat split; assumption.
    + destruct ty; simpl in Hev; try discriminate Hev.
      unfold dispatch. rewrite Hl, hears_resize. simpl. exact Hv.
  - unfold runFrame. apply (fold_left_preserves P); [| exact Hv].
    intros a k (A1 & A2 & A3).
    destruct (animate_no_hover ct a) as (B1 & B2 & B3).
    unfold P. rewrite B1, B2, B3. repeat split; assumption.
  - exact Hv.
Qed.

(** X6.  In a session without a mouse (touch events, resizes, frames,
    clicks in the list) no sensor is ever hovered and the cursor stays the
    grab hand: a touch never puts a marker in the hovered tier. *)
Theorem touch_never_hovers
  (sensors : list Sensor) (v0 : State) (evs : list BrowserEvent)
  (Hmount : mountEffect mobile W H sensors = Ok v0)
  (Hevs : forallb no_mouse evs = true) :
  let v := run mobile W H evs v0 in
  hoveredId (stateRef v) = JNull /\ cursor (page v) = "grab"%string.
Proof.
  cbv zeta.
  destruct (mount_hover sensors v0 Hmount) as [Hc Hh].
  destruct (mount_running sensors v0 Hmount) as (Hl & _).
  clear Hmount. revert v0 Hl Hh Hc Hevs.
  induction evs as [| ev evs IH]; intros v0 Hl Hh Hc Hevs; [split; assumption |].
  cbn [forallb] in Hevs. apply andb_true_iff in Hevs as [Hev Hevs].
  destruct (step_no_mouse JNull "grab"%string v0 ev Hev Hl Hh Hc) as (A1 & A2 & A3).
  change (run mobile W H (ev :: evs) v0)
    with (run mobile W H evs (step mobile W H v0 ev)).
  apply IH; assumption.
Qed.

End SessionFacts.

Section ThrottleFacts.
Import Markers Viewer Session.




(** X8.  While the button or a finger is down, frames neither spin the model
    nor wear the velocity down: whatever frames come, the rotation and the
    drag state are those the handlers left. *)
Theorem no_spin_while_dragging (mobile : bool) (times : list Q) (v : State)
  (Hdr : isDragging (drag v) = true) :
  let v' := animateAll mobile times v in
  drag v' = drag v /\ rotation v' = rotation v /\ selected v' = selected v.
Proof.
  cbv zeta. revert v Hdr.
  induction times as [| ct times IH]; intros v Hdr; [repeat split |].
  rewrite animateAll_cons.
  assert (S1 : drag (animate mobile ct v) = drag v /\
               rotation (animate mobile ct v) = rotation v /\
               selected (animate mobile ct v) = selected v).
  { destruct (throttled mobile ct v) eqn:Hth.
    - rewrite (animate_skipped mobile ct v Hth). repeat split.
    - rewrite (animate_executed mobile ct v Hth). unfold frame. simpl.
      rewrite Hdr. repeat split. }
  destruct S1 as (A1 & A2 & A3).
  assert (Hdr' : isDragging (drag (animate mobile ct v)) = true)
    by (rewrite A1; exact Hdr).
  destruct (IH _ Hdr') as (B1 & B2 & B3).
  rewrite B1, B2, B3. repeat split; assumption.
Qed.

End ThrottleFacts.

Section LayerFacts.
Import Markers.

Lemma markers_for_length (mobile : bool) (sensors : list Sensor) :
  forallb has_position sensors = true ->
  length (markers_for mobile sensors)
  = ((if mobile then 2 else 3) * length sensors)%nat /\
  length (cores_for mobile sensors) = length sensors.
Proof.
  induction sensors as [| s rest IH]; simpl.
  - intros _. destruct mobile; split; reflexivity.
  - unfold has_position at 1. destruct (pos s) as [p |] eqn:E; [| discriminate].
    simpl. intro Hall. destruct (IH Hall) as [I1 I2].
    rewrite length_app, I1, I2. destruct mobile; simpl; split; lia.
Qed.

Lemma cores_in_markers (mobile : bool) (sensors : list Sensor) (o : Object3D) :
  In o (cores_for mobile sensors) -> In o (markers_for mobile sensors).
Proof.
  induction sensors as [| s rest IH]; cbn [markers_for cores_for]; [auto |].
  destruct (pos s) as [p |]; [| exact IH].
  intros [<- | Hin].
  - apply in_or_app. left. unfold marker_of. simpl. right. left. reflexivity.
  - apply in_or_app. right. apply IH. exact Hin.
Qed.

Lemma markers_for_tint (mobile : bool) (sensors : list Sensor) (o : Object3D) :
  In o (markers_for mobile sensors) ->
  exists s p, In s sensors /\ pos s = Some p /\
    let col := Risk.RISK_COLOR_HEX (risk s) in
    (o = Glow p col (Device.sensorDetail mobile) \/
     o = Core p col (Device.sensorDetail mobile) s \/
     (mobile = false /\ o = Connector p col)).
Proof.
  induction sensors as [| s rest IH]; cbn [markers_for]; [intros [] |].
  destruct (pos s) as [p |] eqn:E.
  - intro Hin. apply in_app_or in Hin as [Hin | Hin].
    + exists s, p. split; [left; reflexivity |]. split; [exact E |].
      unfold marker_of in Hin. simpl in Hin.
      destruct Hin as [<- | [<- | Hin]]; [left; reflexivity | right; left; reflexivity |].
      destruct mobile; simpl in Hin; [destruct Hin |].
      destruct Hin as [<- | []]. right. right. split; reflexivity.
    + destruct (IH Hin) as (s' & p' & H1 & H2 & H3).
      exists s', p'. split; [right; exact H1 |]. split; assumption.
  - intro Hin. destruct (IH Hin) as (s' & p' & H1 & H2 & H3).
    exists s', p'. split; [right; exact H1 |]. split; assumption.
Qed.

(** X9.  When construction returns, the layer holds two objects per sensor
    on a constrained device and three otherwise; the meshes the ray cast
    looks at are one per sensor and all of them are in the scene; and every
    object sits at the position of one of the sensors and is tinted with
    the hex colour of that sensor's risk. *)
Theorem marker_layer_shape (mobile : bool) (sensors : list Sensor) (l : Layer)
  (Hbuilt : buildMarkers mobile sensors = Ok l) :
  length (sGroup l) = ((if mobile then 2 else 3) * length sensors)%nat /\
  length (sensorMeshes l) = length sensors /\
  (forall o, In o (sensorMeshes l) -> In o (sGroup l)) /\
  (forall o, In o (sGroup l) ->
     exists s p, In s sensors /\ pos s = Some p /\
       let col := Risk.RISK_COLOR_HEX (risk s) in
       (o = Glow p col (Device.sensorDetail mobile) \/
        o = Core p col (Device.sensorDetail mobile) s \/
        (mobile = false /\ o = Connector p col))).
Proof.
  unfold buildMarkers in Hbuilt. rewrite forEach_addSensor in Hbuilt.
  destruct (forallb has_position sensors) eqn:Hall; [| discriminate Hbuilt].
  injection Hbuilt as <-. simpl.
  destruct (markers_for_length mobile sensors Hall) as [L1 L2].
  split; [exact L1 |]. split; [exact L2 |].
  split; [apply cores_in_markers | apply markers_for_tint].
Qed.

End LayerFacts.

Section EmphasisRange.
Import Emphasis.
Local Open Scope R_scope.

(** X10.  Whatever the frame, the index and the state of a marker: its
    scale is between 0.6 and 1.6, the opacity of its glow between 0.01 and
    0.38, the emissive intensity of its core between 0.15 and 1.3.  A
    marker never shrinks to nothing and its glow is never fully
    transparent nor opaque. *)
Theorem emphasis_stays_visible
  (mobile isSel isHov : bool) (t : Q) (i : nat) :
  0.6 <= scale mobile isSel isHov t i <= 1.6 /\
  0.01 <= opacity mobile isSel isHov t i <= 0.38 /\
  0.15 <= emissiveIntensity mobile isSel isHov t i <= 1.3.
Proof.
  pose proof (phase_bounds mobile t i) as [Hlo Hhi].
  unfold scale, opacity, emissiveIntensity.
  destruct isSel, isHov; repeat split; lra.
Qed.

End EmphasisRange.

(* ================================================================== *)
(** * The panels beside the viewer *)

Section SummaryFacts.
Import Markers Summary.
Local Open Scope Z_scope.

Lemma tile_tests (r : Z) :
  (r <? 30) = String.eqb (Risk.RISK_LABEL r) "NOMINAL" /\
  ((30 <=? r) && (r <? 60)) = String.eqb (Risk.RISK_LABEL r) "WATCH" /\
  (60 <=? r) = String.eqb (Risk.RISK_LABEL r) "CRITICAL".
Proof.
  unfold Risk.RISK_LABEL.
  destruct (Z.ltb_spec r 30); destruct (Z.ltb_spec r 60);
    destruct (Z.leb_spec 30 r); destruct (Z.leb_spec 60 r);
    try lia; repeat split.
Qed.

Lemma tiles_sum (sensors : list Sensor) :
  (nominal sensors + watch sensors + critical sensors)%nat = length sensors.
Proof.
  unfold nominal, watch, critical.
  induction sensors as [| s rest IH]; [reflexivity |].
  cbn [filter].
  destruct (Z.ltb_spec (risk s) 30); destruct (Z.ltb_spec (risk s) 60);
    destruct (Z.leb_spec 30 (risk s)); destruct (Z.leb_spec 60 (risk s));
    try lia; cbn [andb length]; lia.
Qed.

(** X11.  The three tiles of the summary count every sensor once, and each
    tile counts the sensors whose label, as [RISK_LABEL] gives it, is the
    tile's: the thresholds written out in the tiles are those of the
    classification. *)
Theorem summary_tiles_partition (sensors : list Sensor) :
  (nominal sensors + watch sensors + critical sensors)%nat = length sensors /\
  nominal sensors
    = length (filter (fun s => String.eqb (Risk.RISK_LABEL (risk s)) "NOMINAL") sensors) /\
  watch sensors
    = length (filter (fun s => String.eqb (Risk.RISK_LABEL (risk s)) "WATCH") sensors) /\
  critical sensors
    = length (filter (fun s => String.eqb (Risk.RISK_LABEL (risk s)) "CRITICAL") sensors).
Proof.
  split; [apply tiles_sum |].
  unfold nominal, watch, critical.
  repeat split; f_equal; apply filter_ext; intro s;
    destruct (tile_tests (risk s)) as (T1 & T2 & T3); assumption.
Qed.

Lemma distinct_In (x : string) (xs : list string) :
  In x (distinct xs) <-> In x xs.
Proof.
  induction xs as [| y ys IH]; [reflexivity |].
  cbn [distinct In]. rewrite filter_In, IH, negb_true_iff, String.eqb_neq.
  destruct (string_dec y x) as [E | N]; tauto.
Qed.

Lemma distinct_NoDup (xs : list string) : NoDup (distinct xs).
Proof.
  induction xs as [| y ys IH]; cbn [distinct]; constructor.
  - rewrite filter_In, negb_true_iff, String.eqb_neq. tauto.
  - apply NoDup_filter. exact IH.
Qed.

Lemma Math_max_spec (zs : list Z) :
  zs <> [] ->
  exists m, Math_max zs = Fin m /\ In m zs /\ forall z, In z zs -> z <= m.
Proof.
  induction zs as [| z rest IH]; [intro K; contradiction K; reflexivity |].
  intros _. cbn [Math_max]. destruct rest as [| z' rest'].
  - exists z. cbn. repeat split; auto. intros y [<- | []]. lia.
  - destruct IH as (m & E & Hin & Hmax); [discriminate |].
    rewrite E. exists (Z.max z m). split; [reflexivity |]. split.
    + destruct (Z.max_spec z m) as [[_ ->] | [_ ->]]; [right; exact Hin | left; reflexivity].
    + intros y [<- | Hy]; [lia |]. specialize (Hmax y Hy). lia.
Qed.

Lemma list_sum_zero {A : Type} (ks : list A) :
  list_sum (map (fun _ => 0%nat) ks) = 0%nat.
Proof. induction ks; simpl; auto. Qed.

Lemma list_sum_add {A : Type} (f g : A -> nat) (ks : list A) :
  list_sum (map (fun k => (f k + g k)%nat) ks)
  = (list_sum (map f ks) + list_sum (map g ks))%nat.
Proof. induction ks as [| k ks IH]; simpl; [reflexivity | rewrite IH; lia]. Qed.

Lemma list_sum_indicator (x : string) (ks : list string) :
  NoDup ks ->
  list_sum (map (fun k => if String.eqb x k then 1%nat else 0%nat) ks)
  = if existsb (String.eqb x) ks then 1%nat else 0%nat.
Proof.
  induction ks as [| k ks IH]; [reflexivity |].
  intro Hnd. inversion Hnd as [| k' ks' Hnotin Hnd']; subst.
  cbn [map existsb].
  match goal with |- list_sum (?a :: ?l) = _ =>
    change (list_sum (a :: l)) with (a + list_sum l)%nat end.
  rewrite (IH Hnd').
  destruct (String.eqb_spec x k) as [-> | N]; cbn [orb]; [| reflexivity].
  destruct (existsb (String.eqb k) ks) eqn:Ex; [| reflexivity].
  exfalso. apply Hnotin. apply existsb_exists in Ex as (y & Hy & Ey).
  apply String.eqb_eq in Ey. subst y. exact Hy.
Qed.

Lemma counts_sum (ks : list string) (sensors : list Sensor) :
  NoDup ks ->
  list_sum (map (fun k => count k sensors) ks)
  = length (filter (fun s => existsb (String.eqb (subsystem s)) ks) sensors).
Proof.
  intro Hnd. induction sensors as [| s rest IH].
  - cbn. apply list_sum_zero.
  - transitivity
      (list_sum (map (fun k => ((if String.eqb (subsystem s) k then 1 else 0)
                                + count k rest)%nat) ks)).
    + f_equal. apply map_ext. intro k. unfold count, members. cbn [filter].
      destruct (String.eqb (subsystem s) k); reflexivity.
    + rewrite list_sum_add, IH, (list_sum_indicator _ ks Hnd). cbn [filter].
      destruct (existsb (String.eqb (subsystem s)) ks); reflexivity.
Qed.

(** X12.  The pills list each subsystem of the sensors once.  Every pill
    counts at least one sensor and the counts add up to the number of
    sensors; the risk the pill is coloured by is the risk of one of its
    sensors and no sensor of the subsystem has a higher one, so a pill is
    red exactly when one of its sensors is at 60 or above. *)
Theorem subsystem_pills (sensors : list Sensor) :
  NoDup (subsystems sensors) /\
  (forall sid, In sid (subsystems sensors)
               <-> exists s, In s sensors /\ subsystem s = sid) /\
  list_sum (map (fun sid => count sid sensors) (subsystems sensors))
    = length sensors /\
  (forall sid, In sid (subsystems sensors) ->
     (0 < count sid sensors)%nat /\
     (exists m, maxRisk sid sensors = Fin m /\
        (exists s, In s sensors /\ subsystem s = sid /\ risk s = m) /\
        (forall s, In s sensors -> subsystem s = sid -> risk s <= m)) /\
     (pillColor sid sensors = "#ff3b5c"%string
        <-> exists s, In s sensors /\ subsystem s = sid /\ 60 <= risk s)).
Proof.
  assert (Hin : forall sid, In sid (subsystems sensors)
                <-> exists s, In s sensors /\ subsystem s = sid).
  { intro sid. unfold subsystems. rewrite distinct_In, in_map_iff.
    split; intros (s & A & B); exists s; auto. }
  split; [apply distinct_NoDup |]. split; [exact Hin |]. split.
  - rewrite counts_sum by apply distinct_NoDup.
    f_equal. apply filter_all. apply forallb_forall. intros s Hs.
    apply existsb_exists. exists (subsystem s). split; [| apply String.eqb_refl].
    apply Hin. exists s. auto.
  - intros sid Hsid. apply Hin in Hsid as (s0 & Hs0 & E0).
    assert (Hmem : In s0 (members sid sensors)).
    { unfold members. apply filter_In. split; [exact Hs0 |].
      apply String.eqb_eq. exact E0. }
    assert (Hne : map risk (members sid sensors) <> []).
    { destruct (members sid sensors); [destruct Hmem | discriminate]. }
    destruct (Math_max_spec _ Hne) as (m & Em & Him & Hmax).
    assert (Hwit : exists s, In s sensors /\ subsystem s = sid /\ risk s = m).
    { apply in_map_iff in Him as (s & Er & Hs). unfold members in Hs.
      apply filter_In in Hs as [Hs Es]. apply String.eqb_eq in Es.
      exists s. auto. }
    assert (Hall : forall s, In s sensors -> subsystem s = sid -> risk s <= m).
    { intros s Hs Es. apply Hmax. apply in_map. unfold members.
      apply filter_In. split; [exact Hs | apply String.eqb_eq; exact Es]. }
    split; [| split].
    + unfold count. destruct (members sid sensors); [destruct Hmem | simpl; lia].
    + exists m. split; [exact Em |]. split; assumption.
    + unfold pillColor, maxRisk. rewrite Em.
      unfold Risk.RISK_COLOR.
      destruct Hwit as (sw & Hsw & Esw & Erw).
      destruct (Z.ltb_spec m 30); [| destruct (Z.ltb_spec m 60)]; split.
      * discriminate.
      * intros (s & Hs & Es & Hr). specialize (Hall s Hs Es). lia.
      * discriminate.
      * intros (s & Hs & Es & Hr). specialize (Hall s Hs Es). lia.
      * intros _. exists sw. repeat split; auto. lia.
      * reflexivity.
Qed.

End SummaryFacts.

Section HookFacts.

(** X13.  The layout flag of [useIsMobile] is the test of the last width the
    window was resized to, whatever came before.  Read at the width the
    viewer is mounted at, the flag implies the viewer's own detection; the
    two differ only for a handheld user agent on a viewport of 768 or more,
    where the layout is the desktop one and the renderer the constrained
    one. *)
Theorem layout_flag_follows_width
  (w0 : option Z) (resizes : list Z) (w : Z) (ua : string) :
  Hook.useIsMobile w0 (resizes ++ [w]) = (w <? 768)%Z /\
  Hook.useIsMobile None [] = false /\
  (Hook.useIsMobile (Some w) [] = true -> Device.isMobile ua w = true) /\
  (Device.isMobile ua w = true -> Hook.useIsMobile (Some w) [] = false ->
     Device.handheld ua = true /\ (768 <= w)%Z).
Proof.
  unfold Hook.useIsMobile. rewrite fold_left_app. cbn.
  unfold Hook.handleResize, Device.isMobile.
  split; [reflexivity |]. split; [reflexivity |]. split.
  - intros ->. apply orb_true_r.
  - intros Hm Hw. rewrite Hw, orb_false_r in Hm.
    split; [exact Hm |]. apply Z.ltb_ge. exact Hw.
Qed.

End HookFacts.

Section DashboardFacts.
Import Dashboard.

Lemma round_in_window (y : Q) (a b : Z) :
  inject_Z a <= y -> y <= inject_Z b ->
  (a <= Qfloor (y + (1 # 2)) <= b)%Z.
Proof.
  intros Ha Hb. split.
  - rewrite <- (Qfloor_Z a). apply Qfloor_resp_le. lra.
  - assert (K : inject_Z (Qfloor (y + (1 # 2))) < inject_Z (b + 1)).
    { apply Qle_lt_trans with (y + (1 # 2)); [apply Qfloor_le |].
      rewrite inject_Z_plus. change (inject_Z 1) with 1. lra. }
    rewrite <- Zlt_Qlt in K. lia.
Qed.

Lemma scale_pos (dec : nat) : 0 < inject_Z (10 ^ Z.of_nat dec).
Proof.
  change 0 with (inject_Z 0). rewrite <- Zlt_Qlt.
  apply Z.pow_pos_nonneg; lia.
Qed.

(** Rounding to [dec] decimals keeps a value between two bounds that have
    [dec] decimals themselves. *)
Lemma toFixed_within (x : Q) (dec : nat) (a b : Z) :
  let s := inject_Z (10 ^ Z.of_nat dec) in
  inject_Z a / s <= x -> x <= inject_Z b / s ->
  exists n : Z, toFixed x dec == inject_Z n / s /\ (a <= n <= b)%Z.
Proof.
  cbv zeta. pose proof (scale_pos dec) as Hs.
  set (s := inject_Z (10 ^ Z.of_nat dec)) in *.
  intros Ha Hb.
  assert (Hsi : 0 < / s) by (apply Qinv_lt_0_compat; exact Hs).
  assert (Hone : s * / s == 1) by (apply Qmult_inv_r; lra).
  assert (Hxa : inject_Z a <= x * s).
  { unfold Qdiv in Ha. set (si := / s) in *. set (ia := inject_Z a) in *.
    assert (K : ia * si * s <= x * s) by (apply Qmult_le_compat_r; lra).
    setoid_replace (ia * si * s) with (ia * (s * si)) in K by ring.
    rewrite Hone in K. lra. }
  assert (Hxb : x * s <= inject_Z b).
  { unfold Qdiv in Hb. set (si := / s) in *. set (ib := inject_Z b) in *.
    assert (K : x * s <= ib * si * s) by (apply Qmult_le_compat_r; lra).
    setoid_replace (ib * si * s) with (ib * (s * si)) in K by ring.
    rewrite Hone in K. lra. }
  unfold toFixed. fold s. destruct (Qlt_le_dec x 0) as [Hneg | Hpos].
  - destruct (round_in_window (- x * s) (- b) (- a)) as [N1 N2].
    + rewrite inject_Z_opp. lra.
    + rewrite inject_Z_opp. lra.
    + exists (- Qfloor (- x * s + (1 # 2)))%Z. split; [| lia].
      rewrite inject_Z_opp. unfold Qdiv. ring.
  - destruct (round_in_window (x * s) a b Hxa Hxb) as [N1 N2].
    exists (Qfloor (x * s + (1 # 2))). split; [reflexivity | lia].
Qed.

Lemma rand_window (u lo hi : Q) (dec : nat) (a b : Z) :
  0 <= u -> u < 1 ->
  lo == inject_Z a / inject_Z (10 ^ Z.of_nat dec) ->
  hi == inject_Z b / inject_Z (10 ^ Z.of_nat dec) ->
  lo <= hi ->
  exists n : Z,
    rand u lo hi dec == inject_Z n / inject_Z (10 ^ Z.of_nat dec) /\
    (a <= n <= b)%Z.
Proof.
  intros Hu0 Hu1 Hlo Hhi Hle.
  assert (Hx : lo <= u * (hi - lo) + lo /\ u * (hi - lo) + lo <= hi) by (split; nra).
  destruct Hx as [Hx1 Hx2].
  apply (toFixed_within (u * (hi - lo) + lo) dec a b).
  - rewrite <- Hlo. exact Hx1.
  - rewrite <- Hhi. exact Hx2.
Qed.

(** X14.  For a draw of [Math.random], at least 0 and below 1, and bounds
    written with [dec] decimals, [rand] returns a number with [dec]
    decimals between the two bounds, the upper one included. *)
Theorem rand_within_bounds (u lo hi : Q) (dec : nat) (a b : Z)
  (Hu0 : 0 <= u) (Hu1 : u < 1)
  (Hlo : lo == inject_Z a / inject_Z (10 ^ Z.of_nat dec))
  (Hhi : hi == inject_Z b / inject_Z (10 ^ Z.of_nat dec))
  (Hle : lo <= hi) :
  lo <= rand u lo hi dec /\ rand u lo hi dec <= hi /\
  exists n : Z, rand u lo hi dec == inject_Z n / inject_Z (10 ^ Z.of_nat dec).
Proof.
  pose proof (scale_pos dec) as Hs.
  destruct (rand_window u lo hi dec a b Hu0 Hu1 Hlo Hhi Hle) as (n & En & Hn1 & Hn2).
  set (s := inject_Z (10 ^ Z.of_nat dec)) in *.
  assert (Hsi : 0 < / s) by (apply Qinv_lt_0_compat; exact Hs).
  assert (Ia : inject_Z a <= inject_Z n) by (rewrite <- Zle_Qle; exact Hn1).
  assert (Ib : inject_Z n <= inject_Z b) by (rewrite <- Zle_Qle; exact Hn2).
  split; [| split; [| exists n; exact En]].
  - rewrite En, Hlo. unfold Qdiv. apply Qmult_le_compat_r; lra.
  - rewrite En, Hhi. unfold Qdiv. apply Qmult_le_compat_r; lra.
Qed.

Lemma reading_within (u lo hi : Q) (a b : Z) :
  0 <= u -> u < 1 ->
  lo == inject_Z a / inject_Z (10 ^ Z.of_nat 1) ->
  hi == inject_Z b / inject_Z (10 ^ Z.of_nat 1) ->
  lo <= hi ->
  lo <= rand u lo hi 1 /\ rand u lo hi 1 <= hi.
Proof.
  intros H0 H1 Hlo Hhi Hle.
  destruct (rand_window u lo hi 1 a b H0 H1 Hlo Hhi Hle) as (n & En & Hn1 & Hn2).
  assert (Hsi : 0 < / inject_Z (10 ^ Z.of_nat 1)) by reflexivity.
  assert (Ia : inject_Z a <= inject_Z n) by (rewrite <- Zle_Qle; exact Hn1).
  assert (Ib : inject_Z n <= inject_Z b) by (rewrite <- Zle_Qle; exact Hn2).
  split.
  - rewrite En, Hlo. unfold Qdiv. apply Qmult_le_compat_r; lra.
  - rewrite En, Hhi. unfold Qdiv. apply Qmult_le_compat_r; lra.
Qed.

Lemma jitter_draw (u : Q) :
  0 <= u -> u < 1 -> -2 <= rand u (-2) 2 1 /\ rand u (-2) 2 1 <= 2.
Proof.
  intros H0 H1.
  apply (reading_within u (-2) 2 (-20) 20 H0 H1);
    try reflexivity; discriminate.
Qed.

Lemma jitter_risk (u r : Q) (s : Subsystem) :
  0 <= u -> u < 1 -> risk s = Num r ->
  exists r', risk (jitter u s) = Num r' /\ 0 <= r' /\ r' <= 99 /\
             (0 <= r -> r <= 99 -> Qabs (r' - r) <= 2).
Proof.
  intros H0 H1 Hr. destruct (jitter_draw u H0 H1) as [D1 D2].
  unfold jitter. cbn [risk]. rewrite Hr.
  set (d := rand u (-2) 2 1) in *.
  exists (Qmin (Qmax (r + d) 0) 99). split; [reflexivity |].
  destruct (Q.max_spec (r + d) 0) as [[M1 M2] | [M1 M2]];
    destruct (Q.min_spec (Qmax (r + d) 0) 99) as [[N1 N2] | [N1 N2]];
    rewrite N2; rewrite ?M2 in *;
    (split; [lra |]); (split; [lra |]); intros R0 R1;
    apply Qabs_Qle_condition; split; lra.
Qed.

(** X15.  One tick of the dashboard, with draws that [Math.random] can
    return: the subsystems are the same, in the same order, with the same
    names; the risk of each is a number between 0 and 99 afterwards, and,
    if it was within these bounds before, it has moved by at most 2.  The
    eight readings are within the bounds given for them. *)
Theorem tick_keeps_risks_in_range (random : nat -> Q) (p : list Subsystem)
  (Hdraws : unit_draws random) :
  let p' := fst (tick random p) in
  let sv := snd (tick random p) in
  Forall2 (fun s s' =>
             id s' = id s /\ name s' = name s /\ trend s' = trend s /\
             forall r, risk s = Num r ->
               exists r', risk s' = Num r' /\ 0 <= r' /\ r' <= 99 /\
                          (0 <= r -> r <= 99 -> Qabs (r' - r) <= 2)) p p' /\
  (87 <= n1 sv /\ n1 sv <= 91) /\ (618 <= egt sv /\ egt sv <= 624) /\
  (0.4 <= vibration sv /\ vibration sv <= 0.8) /\
  (38 <= oilPressure sv /\ oilPressure sv <= 42) /\
  (2.1 <= fuelFlow sv /\ fuelFlow sv <= 2.4) /\
  (130 <= tankImbalance sv /\ tankImbalance sv <= 160) /\
  (4.1 <= wingFlex sv /\ wingFlex sv <= 5.2) /\
  (42 <= fuselageStress sv /\ fuselageStress sv <= 48).
Proof.
  cbv zeta. unfold tick. cbn [fst snd n1 egt vibration oilPressure fuelFlow
                              tankImbalance wingFlex fuselageStress].
  split.
  - generalize 0%nat as i. induction p as [| s rest IH]; intro i; cbn [jitterFrom].
    + constructor.
    + constructor; [| apply IH].
      split; [reflexivity |]. split; [reflexivity |]. split; [reflexivity |].
      intros r Hr. destruct (Hdraws i) as [H0 H1].
      apply (jitter_risk (random i) r s H0 H1 Hr).
  - repeat match goal with |- _ /\ _ => split end;
      match goal with
      | |- context [rand (random ?k) ?lo ?hi 1] =>
          destruct (Hdraws k) as [H0 H1];
          destruct (reading_within (random k) lo hi
                      (Qfloor (lo * 10)) (Qfloor (hi * 10)) H0 H1)
            as (A & B); [reflexivity | reflexivity | discriminate |];
          assumption
      end.
Qed.

Lemma jitterFrom_range (random : nat -> Q) (p : list Subsystem) :
  unit_draws random ->
  Forall (fun s => finite (risk s)) p ->
  forall i, Forall (risk_within 0 99) (jitterFrom random i p).
Proof.
  intros Hdraws Hfin. induction Hfin as [| s rest Hs Hrest IH]; intro i;
    cbn [jitterFrom]; constructor; [| apply IH].
  destruct (risk s) as [r | | sr] eqn:Hr; [| destruct Hs | destruct Hs].
  destruct (Hdraws i) as [H0 H1].
  destruct (jitter_risk (random i) r s H0 H1 Hr) as (r' & E & A & B & _).
  unfold risk_within. rewrite E. split; assumption.
Qed.

Lemma risk_within_finite (p : list Subsystem) :
  Forall (risk_within 0 99) p -> Forall (fun s => finite (risk s)) p.
Proof.
  intro Hp. eapply Forall_impl; [| exact Hp].
  intros s Hs. unfold risk_within in Hs. destruct (risk s); [exact I | exact Hs | exact Hs].
Qed.

(** X16.  Through the ticks of a session every risk score stays between 0
    and 99, from the first tick on, whatever it started from, as long as it
    started as a number. *)
Theorem risks_stay_in_range (randoms : list (nat -> Q)) (random : nat -> Q)
  (p : list Subsystem)
  (Hdraws : Forall unit_draws (random :: randoms))
  (Hnum : Forall (fun s => finite (risk s)) p) :
  Forall (risk_within 0 99) (ticks (random :: randoms) p) /\
  length (ticks (random :: randoms) p) = length p.
Proof.
  inversion Hdraws as [| r0 rs Hd0 Hds]; subst.
  assert (H1 : Forall (risk_within 0 99) (fst (tick random p)))
    by (apply jitterFrom_range; assumption).
  assert (L1 : length (fst (tick random p)) = length p).
  { unfold tick. cbn [fst]. generalize 0%nat as i.
    induction p as [| s rest IH]; intro i; cbn [jitterFrom length];
      [reflexivity |].
    inversion Hnum; subst. rewrite IH; [reflexivity | assumption | ].
    apply jitterFrom_range; [assumption |]. inversion Hnum; assumption. }
  change (ticks (random :: randoms) p) with (ticks randoms (fst (tick random p))).
  revert H1 L1. generalize (fst (tick random p)) as q. clear Hnum Hd0 Hdraws.
  induction Hds as [| r1 rs Hr1 Hrs IH]; intros q Hq Lq; [split; assumption |].
  change (ticks (r1 :: rs) q) with (ticks rs (fst (tick r1 q))).
  apply IH.
  - apply jitterFrom_range; [exact Hr1 | apply risk_within_finite; exact Hq].
  - rewrite <- Lq. unfold tick. cbn [fst]. generalize 0%nat as i.
    clear. induction q as [| s rest IH]; intro i; cbn [jitterFrom length];
      [reflexivity | rewrite IH; reflexivity].
Qed.

End DashboardFacts.

(* ================================================================== *)
(** * Login, its history, and the pages *)

Section StoreFacts.
Import Store.

Lemma remember_cap (entry : json) (history : list json) :
  (length history <= 100)%nat ->
  remember entry history = firstn 100 (entry :: history).
Proof.
  intro Hlen. unfold remember.
  destruct (Nat.ltb_spec 100 (length (entry :: history))) as [Hgt | Hle].
  - rewrite removelast_firstn_len. f_equal. cbn [length] in *. lia.
  - symmetry. apply firstn_all2. exact Hle.
Qed.

Lemma remember_shape (entry : json) (history : list json) :
  remember entry history
  = entry :: firstn (if (100 <=? length history)%nat
                     then length history - 1 else length history) history.
Proof.
  unfold remember. cbn [length].
  destruct (Nat.ltb_spec 100 (S (length history))) as [Hgt | Hle];
    destruct (Nat.leb_spec 100 (length history)) as [Hge | Hlt]; try lia.
  - destruct history as [| h rest]; [cbn in Hge; lia |].
    change (removelast (entry :: h :: rest)) with (entry :: removelast (h :: rest)).
    rewrite removelast_firstn_len. f_equal. f_equal. cbn [length]. lia.
  - rewrite firstn_all. reflexivity.
Qed.

(** X17.  With a history item that is absent, empty or an array, a save
    returns; afterwards the current user reads back as the entry saved and
    the history as that entry followed by the entries there were, in their
    order, less the oldest one if there were a hundred or more.  A history
    of at most a hundred entries stays so. *)
Theorem save_then_read (name : string) (isAdmin : bool) (now : Clock)
  (ls : LocalStorage) (history : list json)
  (Hitem : or_empty_array (aerosense_login_history ls) = Encodes (JSArray history)) :
  let entry := loginEntry name isAdmin now in
  let kept := firstn (if (100 <=? length history)%nat
                      then length history - 1 else length history) history in
  exists ls',
    saveLoginHistory name isAdmin now ls = Done ls' /\
    getCurrentUser ls' = Done entry /\
    getLoginHistory ls' = Done (JSArray (entry :: kept)) /\
    ((length history <= 100)%nat -> (length (entry :: kept) <= 100)%nat).
Proof.
  cbv zeta. unfold saveLoginHistory. rewrite Hitem. cbn [JSON_parse].
  eexists. split; [reflexivity |].
  split; [reflexivity |]. split.
  - unfold getLoginHistory. cbn. rewrite remember_shape. reflexivity.
  - intro Hlen. cbn [length]. rewrite length_firstn.
    destruct (Nat.leb_spec 100 (length history)); lia.
Qed.

Lemma firstn_app_firstn {A : Type} (n : nat) (xs ys : list A) :
  firstn n (xs ++ firstn n ys) = firstn n (xs ++ ys).
Proof.
  rewrite !firstn_app, firstn_firstn. f_equal. f_equal. lia.
Qed.

Lemma saveAll_history (logins : list (string * bool * Clock)) :
  forall (ls : LocalStorage) (history : list json),
    or_empty_array (aerosense_login_history ls) = Encodes (JSArray history) ->
    (length history <= 100)%nat ->
    exists ls',
      saveAll logins ls = Done ls' /\
      aerosense_login_history ls'
        = (match logins with
           | [] => aerosense_login_history ls
           | _ => Some (Encodes (JSArray
                    (firstn 100
                       (rev (map (fun l => loginEntry (fst (fst l)) (snd (fst l)) (snd l))
                                 logins) ++ history))))
           end) /\
      aerosense_current_user ls'
        = (match rev logins with
           | [] => aerosense_current_user ls
           | l :: _ => Some (Encodes (loginEntry (fst (fst l)) (snd (fst l)) (snd l)))
           end).
Proof.
  induction logins as [| [[n a] c] rest IH]; intros ls history Hitem Hlen.
  - exists ls. repeat split.
  - cbn [saveAll]. unfold saveLoginHistory. rewrite Hitem. cbn [JSON_parse].
    rewrite remember_cap by exact Hlen.
    set (e := loginEntry n a c).
    set (ls1 := {| aerosense_login_history :=
                     Some (JSON_stringify (JSArray (firstn 100 (e :: history))));
                   aerosense_current_user := Some (JSON_stringify e) |}).
    destruct (IH ls1 (firstn 100 (e :: history))) as (ls' & E1 & E2 & E3).
    + reflexivity.
    + rewrite length_firstn. lia.
    + exists ls'. split; [exact E1 |]. split.
      * rewrite E2. destruct rest as [| l2 rest2].
        -- cbn. reflexivity.
        -- f_equal. f_equal. f_equal.
           rewrite firstn_app_firstn.
           change (map _ (((n, a), c) :: l2 :: rest2))
             with (e :: map (fun l => loginEntry (fst (fst l)) (snd (fst l)) (snd l))
                            (l2 :: rest2)).
           cbn [rev]. rewrite <- !app_assoc. reflexivity.
      * rewrite E3. cbn [rev].
        destruct (rev rest) as [| l rs] eqn:Er; reflexivity.
Qed.

(** X18.  Starting with no history item, after the logins of any number of
    sessions the history holds the last hundred of them, the newest first,
    and the current user is the last one to have logged in. *)
Theorem history_keeps_last_hundred
  (logins : list (string * bool * Clock)) (last_login : string * bool * Clock)
  (ls : LocalStorage)
  (Hfresh : aerosense_login_history ls = None) :
  let entry := fun l : string * bool * Clock =>
                 loginEntry (fst (fst l)) (snd (fst l)) (snd l) in
  exists ls',
    saveAll (logins ++ [last_login]) ls = Done ls' /\
    getLoginHistory ls'
      = Done (JSArray (firstn 100 (entry last_login :: rev (map entry logins)))) /\
    getCurrentUser ls' = Done (entry last_login) /\
    (length (firstn 100 (entry last_login :: rev (map entry logins))) <= 100)%nat.
Proof.
  cbv zeta.
  destruct (saveAll_history (logins ++ [last_login]) ls [])
    as (ls' & E1 & E2 & E3).
  - rewrite Hfresh. reflexivity.
  - cbn. lia.
  - exists ls'. split; [exact E1 |].
    rewrite rev_app_distr in E3. cbn [rev app] in E3.
    destruct (logins ++ [last_login]) as [| x xs] eqn:El;
      [destruct logins; discriminate El |].
    rewrite <- El in E2. rewrite map_app, rev_app_distr, app_nil_r in E2.
    cbn [map rev app] in E2.
    split; [unfold getLoginHistory; rewrite E2; reflexivity |].
    split; [unfold getCurrentUser; rewrite E3; reflexivity |].
    rewrite length_firstn. lia.
Qed.

(** X19.  With a history item that does not parse, or that parses to
    something other than an array, a save throws ([SyntaxError] for the
    first, [TypeError] for the second) before it writes: reading the
    history back fails or returns the same value as before, and the
    current user is not written. *)
Theorem save_on_corrupt_history (name : string) (isAdmin : bool) (now : Clock)
  (ls : LocalStorage)
  (Hitem : forall history,
     or_empty_array (aerosense_login_history ls) <> Encodes (JSArray history)) :
  (exists e, saveLoginHistory name isAdmin now ls = Raised e /\
     (e = SyntaxError <-> getLoginHistory ls = Raised SyntaxError) /\
     (e = TypeError <-> exists v, getLoginHistory ls = Done v)) /\
  forall logins, logins <> [] -> exists e, saveAll logins ls = Raised e.
Proof.
  assert (K : forall n a c, exists e, saveLoginHistory n a c ls = Raised e /\
     (e = SyntaxError <-> getLoginHistory ls = Raised SyntaxError) /\
     (e = TypeError <-> exists v, getLoginHistory ls = Done v)).
  { intros n a c. unfold saveLoginHistory, getLoginHistory.
    destruct (or_empty_array (aerosense_login_history ls)) as [| v |] eqn:E.
    - exists SyntaxError. cbn. split; [reflexivity |].
      split; [tauto |]. split; [discriminate | intros (v & Hv); discriminate Hv].
    - destruct v as [| b | q | s | items | fields];
        try (exists TypeError; cbn; split; [reflexivity |];
             split; [split; discriminate |];
             split; [intros _; eexists; reflexivity | reflexivity]).
      exfalso. apply (Hitem items). reflexivity.
    - exists SyntaxError. cbn. split; [reflexivity |].
      split; [tauto |]. split; [discriminate | intros (v & Hv); discriminate Hv]. }
  split; [apply K |].
  intros [| [[n a] c] rest] Hne; [contradiction Hne; reflexivity |].
  destruct (K n a c) as (e & E & _). exists e. cbn [saveAll]. rewrite E. reflexivity.
Qed.

End StoreFacts.

Section LoginFacts.
Import Store Login.

Variables trim toUpperCase : string -> string.

Lemma isUserLogin_password (f : Form) :
  isUserLogin trim toUpperCase f = String.eqb (pw f) "admin001".
Proof.
  unfold isUserLogin, isAdminLogin.
  destruct (String.eqb_spec (pw f) "admin001") as [E | N]; [| reflexivity].
  rewrite E. cbn. rewrite andb_false_r. reflexivity.
Qed.

(** X20.  What [attempt] decides.  A name that trims to nothing is refused
    whatever the password, and nothing is stored.  Otherwise the attempt is
    accepted exactly when the password is the users' one, or the
    administrator's one with a name that upper-cases to ADMIN; it is an
    administrator's login exactly in the second case, so the users' password
    never gives the administrator's role, whatever the name.  An accepted
    attempt stores the trimmed name as the current user and sets the one
    timer that calls [onSuccess] with it; a refused one sets no such timer
    and stores nothing. *)
Theorem attempt_decision (now : Clock) (f : Form) (ls : LocalStorage) :
  let a := attempt trim toUpperCase now f ls in
  let n := trim (name f) in
  let admin := (toUpperCase n = "ADMIN" /\ pw f = "sufian001")%string in
  let accepted := n <> ""%string /\ (pw f = "admin001"%string \/ admin) in
  (n = ""%string -> timers a = [ClearError false] /\ storage a = ls) /\
  (~ accepted -> storage a = ls /\ forall m b, ~ In (OnSuccess m b) (timers a)) /\
  (forall m b, In (OnSuccess m b) (timers a) ->
     accepted /\ m = n /\ (b = true <-> admin) /\
     timers a = [OnSuccess m b] /\ raised a = None /\
     getCurrentUser (storage a) = Done (loginEntry n b now)) /\
  (accepted -> raised a = None -> exists b, timers a = [OnSuccess n b]) /\
  (pw f = "admin001"%string -> forall m b, In (OnSuccess m b) (timers a) -> b = false).
Proof.
  cbv zeta. unfold attempt.
  pose proof (isUserLogin_password f) as Hu.
  destruct (String.eqb_spec (trim (name f)) "") as [Eblank | Nblank].
  { cbn [timers storage raised].
    split; [intros _; split; reflexivity |].
    split; [intros _; split; [reflexivity |]; intros m b [K | []]; discriminate K |].
    split; [intros m b [K | []]; discriminate K |].
    split; [intros (K & _); contradiction | intros _ m b [K | []]; discriminate K]. }
  assert (Hadm : isAdminLogin trim toUpperCase f = true
                 <-> toUpperCase (trim (name f)) = "ADMIN"%string
                     /\ pw f = "sufian001"%string).
  { unfold isAdminLogin. rewrite andb_true_iff, !String.eqb_eq. tauto. }
  assert (Hacc : isAdminLogin trim toUpperCase f || isUserLogin trim toUpperCase f = true
                 <-> pw f = "admin001"%string
                     \/ (toUpperCase (trim (name f)) = "ADMIN"%string
                         /\ pw f = "sufian001"%string)).
  { rewrite orb_true_iff, Hadm, Hu, String.eqb_eq. tauto. }
  destruct (isAdminLogin trim toUpperCase f || isUserLogin trim toUpperCase f) eqn:Eacc.
  - assert (Hyes := proj1 Hacc eq_refl).
    change (isAdminLogin trim toUpperCase
              {| name := name f; pw := pw f; error := error f; shake := shake f;
                 loading := true |})
      with (isAdminLogin trim toUpperCase f).
    destruct (saveLoginHistory (trim (name f)) (isAdminLogin trim toUpperCase f) now ls)
      as [ls' | e] eqn:Es; cbn [timers storage raised].
    + assert (Hcu : getCurrentUser ls'
                    = Done (loginEntry (trim (name f))
                              (isAdminLogin trim toUpperCase f) now)).
      { unfold saveLoginHistory in Es.
        destruct (JSON_parse (or_empty_array (aerosense_login_history ls)))
          as [[| | | | h |] | ]; try discriminate Es.
        injection Es as <-. reflexivity. }
      split; [intro K; contradiction |].
      split; [intros K; exfalso; apply K; split; assumption |].
      split.
      * intros m b [K | []]. injection K as <- <-.
        split; [split; assumption |]. split; [reflexivity |].
        split; [exact Hadm |]. split; [reflexivity |]. split; [reflexivity | exact Hcu].
      * split; [intros _ _; eexists; reflexivity |].
        intros Hpw m b [K | []]. injection K as <- <-.
        destruct (isAdminLogin trim toUpperCase f) eqn:Ea; [| reflexivity].
        destruct (proj1 Hadm eq_refl) as [_ Ea']. rewrite Hpw in Ea'.
        discriminate Ea'.
    + split; [intro K; contradiction |].
      split; [intros K; exfalso; apply K; split; assumption |].
      split; [intros m b [] |].
      split; [intros _ K; discriminate K | intros _ m b []].
  - assert (Hno : ~ (pw f = "admin001"%string
                     \/ (toUpperCase (trim (name f)) = "ADMIN"%string
                         /\ pw f = "sufian001"%string))).
    { intro K. apply Hacc in K. discriminate K. }
    cbn [timers storage raised].
    split; [intro K; contradiction |].
    split; [intros _; split; [reflexivity |]; intros m b [K | []]; discriminate K |].
    split; [intros m b [K | []]; discriminate K |].
    split; [intros (_ & K); contradiction | intros _ m b [K | []]; discriminate K].
Qed.

(** X21.  With credentials that are accepted, the users' password or the
    administrator's name and password, and a history item that does not
    parse to an array, [attempt] ends on the exception of the save: the form
    is left loading, no timer is set, so [onSuccess] is never called, and
    the storage is as it was. *)
Theorem corrupt_history_blocks_login (now : Clock) (f : Form) (ls : LocalStorage)
  (Hname : trim (name f) <> ""%string)
  (Hpw : pw f = "admin001"%string \/
         (toUpperCase (trim (name f)) = "ADMIN"%string /\
          pw f = "sufian001"%string))
  (Hitem : forall history,
     or_empty_array (aerosense_login_history ls) <> Encodes (JSArray history)) :
  let a := attempt trim toUpperCase now f ls in
  loading (form a) = true /\ timers a = [] /\ storage a = ls /\
  exists e, raised a = Some e.
Proof.
  cbv zeta. unfold attempt.
  destruct (String.eqb_spec (trim (name f)) "") as [E | _]; [contradiction |].
  assert (Hacc : isAdminLogin trim toUpperCase f || isUserLogin trim toUpperCase f
                 = true).
  { destruct Hpw as [Hu | [Hn Ha]].
    - rewrite isUserLogin_password, Hu. apply orb_true_r.
    - unfold isAdminLogin at 1. rewrite Hn, Ha. reflexivity. }
  rewrite Hacc.
  destruct (saveLoginHistory (trim (name f))
              (isAdminLogin trim toUpperCase
                 {| name := name f; pw := pw f; error := error f;
                    shake := shake f; loading := true |}) now ls)
    as [ls' | e] eqn:Es.
  - exfalso. unfold saveLoginHistory in Es.
    destruct (or_empty_array (aerosense_login_history ls)) as [| v |] eqn:Ei;
      cbn in Es; try discriminate Es.
    destruct v; try discriminate Es. apply (Hitem items). reflexivity.
  - cbn. repeat split. exists e. reflexivity.
Qed.

End LoginFacts.

Section AppFacts.
Import Store Login App.

Variables trim toUpperCase : string -> string.

(** What holds of every state: the history page has an administrator as the
    current user, the dashboard has a flight. *)
Lemma step_guarded (st : State) (ev : Event) :
  ((page st = PHistory -> is_admin (currentUser st) = true) /\
   (page st = PDashboard -> activeFlight st <> None)) ->
  (page (step trim toUpperCase st ev) = PHistory -> is_admin (currentUser (step trim toUpperCase st ev)) = true) /\
  (page (step trim toUpperCase st ev) = PDashboard -> activeFlight (step trim toUpperCase st ev) <> None).
Proof.
  intros [Hh Hd].
  destruct ev as [f now | k now | flight | | |]; unfold step;
    destruct (page st) eqn:Ep;
    try (destruct (nth_error (pending st) k) as [[n [|]] |]);
    try (destruct (is_admin (currentUser st)) eqn:Ea);
    split; intro K; cbn in K |- *;
    try congruence; try reflexivity;
    try (apply Hh; congruence); try (apply Hd; congruence).
Qed.

(** X22.  Whatever the storage held at start and whatever happens then,
    attempts, timers, clicks: when the login history page is shown the
    current user has the administrator's flag, and when the dashboard is
    shown a flight has been chosen. *)
Theorem pages_are_guarded (ls : LocalStorage) (st0 : State) (evs : list Event)
  (Hstart : start ls = Done st0) :
  let st := run trim toUpperCase evs st0 in
  (page st = PHistory -> is_admin (currentUser st) = true) /\
  (page st = PDashboard -> activeFlight st <> None).
Proof.
  cbv zeta. unfold run.
  apply (fold_left_preserves
           (fun st => (page st = PHistory -> is_admin (currentUser st) = true) /\
                      (page st = PDashboard -> activeFlight st <> None))
           (step trim toUpperCase) evs).
  - intros a ev Ha. apply step_guarded. exact Ha.
  - unfold start in Hstart. destruct (getCurrentUser ls); [| discriminate Hstart].
    injection Hstart as <-. cbn. split; discriminate.
Qed.

Lemma in_remove_nth {A : Type} (k : nat) (xs : list A) (x : A) :
  In x (firstn k xs ++ skipn (S k) xs) -> In x xs.
Proof.
  intro Hin. apply in_app_or in Hin as [Hin | Hin].
  - rewrite <- (firstn_skipn k xs). apply in_or_app. left. exact Hin.
  - rewrite <- (firstn_skipn (S k) xs). apply in_or_app. right. exact Hin.
Qed.

Lemma successes_admin (now : Clock) (f : Form) (ls : LocalStorage) (n : string) :
  In (n, true) (successes (timers (attempt trim toUpperCase now f ls))) ->
  toUpperCase (trim (name f)) = "ADMIN"%string /\ pw f = "sufian001"%string.
Proof.
  unfold attempt.
  destruct (String.eqb (trim (name f)) ""); [intros [] |].
  destruct (isAdminLogin trim toUpperCase f || isUserLogin trim toUpperCase f);
    [| intros []].
  change (isAdminLogin trim toUpperCase
            {| name := name f; pw := pw f; error := error f; shake := shake f;
               loading := true |})
    with (isAdminLogin trim toUpperCase f).
  destruct (saveLoginHistory (trim (name f)) (isAdminLogin trim toUpperCase f) now ls);
    cbn; [| intros []].
  intros [K | []]. injection K as _ K.
  unfold isAdminLogin in K. apply andb_true_iff in K as [K1 K2].
  apply String.eqb_eq in K1, K2. split; assumption.
Qed.

Lemma step_privileged (st : State) (ev : Event) :
  privileged (step trim toUpperCase st ev) ->
  privileged st \/ admin_attempt trim toUpperCase ev.
Proof.
  unfold privileged.
  destruct ev as [f now | k now | flight | | |]; unfold step.
  - (* an attempt: the page stays, timers may be added *)
    destruct (page st) eqn:Ep; try (intro K; rewrite Ep in K; left; exact K).
    cbn [page currentUser pending].
    intros [K | [[K _] | (n & K)]].
    + discriminate K.
    + contradiction K. reflexivity.
    + apply in_app_or in K as [K | K].
      * left. right. right. exists n. exact K.
      * right. cbn. apply (successes_admin now f (storage st) n K).
  - (* a timer: the page and the user are those of the accepted attempt *)
    intro K.
    assert (K' : match nth_error (pending st) k with
                 | Some (n, isAdmin) =>
                     isAdmin = true \/
                     (exists m, In (m, true)
                                   (firstn k (pending st) ++ skipn (S k) (pending st)))
                 | None => page st = PHistory \/
                           page st <> PLogin /\ is_admin (currentUser st) = true \/
                           (exists n, In (n, true) (pending st))
                 end).
    { revert K. destruct (page st) eqn:Ep;
        destruct (nth_error (pending st) k) as [[n [|]] |];
        cbn; intro K; rewrite ?Ep in K; auto;
        destruct K as [K | [[_ K] | K]];
        first [discriminate K | right; exact K]. }
    clear K.
    destruct (nth_error (pending st) k) as [[n a] |] eqn:En; [| left; exact K'].
    apply nth_error_In in En. left. right. right.
    destruct K' as [-> | (m & K)]; [exists n; exact En |].
    exists m. apply (in_remove_nth k). exact K.
  - destruct (page st) eqn:Ep; try (intro K; rewrite Ep in K; left; exact K).
    cbn [page currentUser pending].
    intros [K | [[_ K] | K]].
    + discriminate K.
    + left. right. left. split; [discriminate | exact K].
    + left. right. right. exact K.
  - destruct (page st) eqn:Ep; try (intro K; rewrite Ep in K; left; exact K).
    cbn [page currentUser pending].
    intros [K | [[K _] | K]].
    + discriminate K.
    + contradiction K. reflexivity.
    + left. right. right. exact K.
  - destruct (page st) eqn:Ep; try (intro K; rewrite Ep in K; left; exact K).
    destruct (is_admin (currentUser st)) eqn:Ea.
    + intros _. left. right. left. split; [discriminate | reflexivity].
    + intro K. rewrite Ep, Ea in K. left. exact K.
  - destruct (page st) eqn:Ep; try (intro K; rewrite Ep in K; left; exact K).
    + cbn [page currentUser pending].
      intros [K | [[_ K] | K]].
      * discriminate K.
      * left. right. left. split; [discriminate | exact K].
      * left. right. right. exact K.
    + intros _. left. left. reflexivity.
Qed.

Lemma run_privileged (evs : list Event) :
  forall st, privileged (run trim toUpperCase evs st) ->
             privileged st \/ Exists (admin_attempt trim toUpperCase) evs.
Proof.
  induction evs as [| ev evs IH]; intros st Hp; [left; exact Hp |].
  change (run trim toUpperCase (ev :: evs) st) with (run trim toUpperCase evs (step trim toUpperCase st ev)) in Hp.
  destruct (IH _ Hp) as [K | K].
  - destruct (step_privileged st ev K) as [K' | K'];
      [left; exact K' | right; apply Exists_cons_hd; exact K'].
  - right. apply Exists_cons_tl. exact K.
Qed.

(** X23.  The login history page is shown only in a session in which some
    attempt was made with the administrator's password and a name that
    trims and upper-cases to ADMIN: neither what the storage held at start,
    nor the users' password, nor any order of timers and clicks leads
    there. *)
Theorem history_needs_admin_login
  (ls : LocalStorage) (st0 : State) (evs : list Event)
  (Hstart : start ls = Done st0)
  (Hshown : page (run trim toUpperCase evs st0) = PHistory) :
  exists f now, In (Attempt f now) evs /\
    toUpperCase (trim (name f)) = "ADMIN"%string /\ pw f = "sufian001"%string.
Proof.
  destruct (run_privileged evs st0 (or_introl Hshown)) as [K | K].
  - exfalso. unfold start in Hstart.
    destruct (getCurrentUser ls); [| discriminate Hstart].
    injection Hstart as <-.
    destruct K as [K | [[K _] | (n & K)]]; cbn in K.
    + discriminate K.
    + contradiction K. reflexivity.
    + exact K.
  - apply Exists_exists in K as (ev & Hin & Hev).
    destruct ev as [f now | | | | |]; cbn in Hev; try contradiction.
    exists f, now. split; [exact Hin | exact Hev].
Qed.

(** X24.  After a save, a start of the application on the storage it left
    finds the saved entry as the current user, not yet on any page but the
    login; after a logout, a start finds no user, while the history item is
    what the save left. *)
Theorem reload_finds_user_until_logout
  (n : string) (isAdmin : bool) (now : Clock) (ls ls' : LocalStorage)
  (st : State)
  (Hsave : saveLoginHistory n isAdmin now ls = Done ls')
  (Hpage : page st = PSelect) (Hstore : storage st = ls') :
  (exists st1, start ls' = Done st1 /\ page st1 = PLogin /\
               currentUser st1 = loginEntry n isAdmin now /\
               is_admin (currentUser st1) = isAdmin) /\
  (let out := step trim toUpperCase st Logout in
   page out = PLogin /\ currentUser out = JSNull /\
   aerosense_login_history (storage out) = aerosense_login_history ls' /\
   exists st2, start (storage out) = Done st2 /\ currentUser st2 = JSNull /\
               page st2 = PLogin).
Proof.
  assert (Hcu : aerosense_current_user ls'
                = Some (Encodes (loginEntry n isAdmin now))).
  { unfold saveLoginHistory in Hsave.
    destruct (JSON_parse (or_empty_array (aerosense_login_history ls)))
      as [[| | | | h |] | ]; try discriminate Hsave.
    injection Hsave as <-. reflexivity. }
  split.
  - unfold start, getCurrentUser. rewrite Hcu. cbn.
    eexists. split; [reflexivity |]. cbn.
    split; [reflexivity |]. split; reflexivity.
  - cbv zeta. unfold step. rewrite Hpage. cbn. rewrite Hstore.
    split; [reflexivity |]. split; [reflexivity |]. split; [reflexivity |].
    eexists. split; [reflexivity |]. split; reflexivity.
Qed.

End AppFacts.

(* ================================================================== *)
(** * The further properties on sample inputs *)

Section OnSamples.
Import Markers Viewer Session Samples.
Local Open Scope Q_scope.



Lemma one_frame_callback_owed_witness :
  mountEffect false 800 600 [eng1; eng2] = Ok (fresh false) /\
  canvasAttached (page (run false 800 600 long_drag (fresh false))) = true.
Proof.
  split; [reflexivity |].
  exact (proj1 (proj2 (one_frame_callback_owed false 800 600 [eng1; eng2]
                         (fresh false) long_drag eq_refl))).
Defined.

Lemma time_counts_rendered_frames_witness :
  mountEffect false 800 600 [eng1; eng2] = Ok (fresh false) /\
  frames (gfx (run false 800 600 long_drag (fresh false))) = 4%nat /\
  t (loop (run false 800 600 long_drag (fresh false)))
    = accumulated false (frames (gfx (run false 800 600 long_drag (fresh false)))).
Proof.
  split; [reflexivity |]. split; [reflexivity |].
  exact (proj1 (time_counts_rendered_frames false 800 600 [eng1; eng2]
                  (fresh false) long_drag eq_refl)).
Defined.

Lemma grab_cursor_means_no_hover_witness :
  mountEffect true 800 600 [eng1; eng2] = Ok (fresh true) /\
  (cursor (page (run true 800 600 finger_tap (fresh true))) = "grab"%string \/
   cursor (page (run true 800 600 finger_tap (fresh true))) = "pointer"%string).
Proof.
  split; [reflexivity |].
  exact (proj1 (grab_cursor_means_no_hover true 800 600 [eng1; eng2]
                  (fresh true) finger_tap eq_refl)).
Defined.

Lemma touch_never_hovers_witness :
  mountEffect true 800 600 [eng1; eng2] = Ok (fresh true) /\
  forallb no_mouse finger_tap = true /\
  hoveredId (stateRef (run true 800 600 finger_tap (fresh true))) = JNull.
Proof.
  split; [reflexivity |]. split; [reflexivity |].
  exact (proj1 (touch_never_hovers true 800 600 [eng1; eng2]
                  (fresh true) finger_tap eq_refl eq_refl)).
Defined.


Lemma no_spin_while_dragging_witness :
  isDragging (drag (onDown env0 press (fresh false))) = true /\
  rotation (animateAll false [16; 33] (onDown env0 press (fresh false)))
    = rotation (onDown env0 press (fresh false)).
Proof.
  split; [reflexivity |].
  exact (proj1 (proj2 (no_spin_while_dragging false [16; 33]
                         (onDown env0 press (fresh false)) eq_refl))).
Defined.

Lemma marker_layer_shape_witness :
  buildMarkers false [eng1; eng2] = Ok two_markers /\
  length (sGroup two_markers) = 6%nat.
Proof.
  split; [reflexivity |].
  exact (proj1 (marker_layer_shape false [eng1; eng2] two_markers eq_refl)).
Defined.

End OnSamples.

Section OnSampleRecords.
Import Dashboard.
Local Open Scope Q_scope.

Lemma high_draws_unit : unit_draws high_draws.
Proof. intro i. split; [discriminate | reflexivity]. Defined.

Lemma rand_within_bounds_witness :
  0 <= 0.99 /\ 0.99 < 1 /\ rand 0.99 (-2) 2 1 <= 2.
Proof.
  assert (H0 : 0 <= 0.99) by discriminate.
  assert (H1 : 0.99 < 1) by reflexivity.
  split; [exact H0 |]. split; [exact H1 |].
  refine (proj1 (proj2 (rand_within_bounds 0.99 (-2) 2 1 (-20) 20 H0 H1 _ _ _)));
    try reflexivity; discriminate.
Defined.

Lemma tick_keeps_risks_in_range_witness :
  unit_draws high_draws /\
  87 <= n1 (snd (tick high_draws [engines])) /\
  n1 (snd (tick high_draws [engines])) <= 91.
Proof.
  split; [exact high_draws_unit |].
  exact (proj1 (proj2 (tick_keeps_risks_in_range high_draws [engines]
                         high_draws_unit))).
Defined.

Lemma risks_stay_in_range_witness :
  Forall unit_draws [high_draws; high_draws] /\
  Forall (risk_within 0 99) (ticks [high_draws; high_draws] [engines]).
Proof.
  assert (Hd : Forall unit_draws [high_draws; high_draws])
    by (apply Forall_cons; [exact high_draws_unit |];
        apply Forall_cons; [exact high_draws_unit | apply Forall_nil]).
  split; [exact Hd |].
  refine (proj1 (risks_stay_in_range [high_draws] high_draws [engines] Hd _)).
  apply Forall_cons; [exact I | apply Forall_nil].
Defined.

End OnSampleRecords.

Section OnSampleLogins.
Import Store Login App Samples.

Lemma save_then_read_witness :
  or_empty_array (aerosense_login_history empty) = Encodes (JSArray []) /\
  exists ls',
    saveLoginHistory "amal" false noon empty = Done ls' /\
    getCurrentUser ls' = Done (loginEntry "amal" false noon).
Proof.
  split; [reflexivity |].
  destruct (save_then_read "amal" false noon empty [] eq_refl)
    as (ls' & E1 & E2 & _).
  exists ls'. split; [exact E1 | exact E2].
Defined.

Lemma history_keeps_last_hundred_witness :
  aerosense_login_history empty = None /\
  exists ls',
    saveAll [("amal", false, noon); ("ADMIN", true, noon)]%string empty = Done ls' /\
    getCurrentUser ls' = Done (loginEntry "ADMIN" true noon).
Proof.
  split; [reflexivity |].
  destruct (history_keeps_last_hundred [("amal", false, noon)]%string
              ("ADMIN", true, noon)%string empty eq_refl)
    as (ls' & E1 & _ & E3 & _).
  exists ls'. split; [exact E1 | exact E3].
Defined.

Lemma corrupt_has_no_array (history : list json) :
  or_empty_array (aerosense_login_history corrupt) <> Encodes (JSArray history).
Proof. intro K. discriminate K. Defined.

Lemma save_on_corrupt_history_witness :
  exists e, saveLoginHistory "amal" false noon corrupt = Raised e.
Proof.
  destruct (proj1 (save_on_corrupt_history "amal" false noon corrupt
                     corrupt_has_no_array)) as (e & E & _).
  exists e. exact E.
Defined.

Lemma corrupt_history_blocks_login_witness :
  ascii_trim " admin " <> ""%string /\
  ascii_upper (ascii_trim " admin ") = "ADMIN"%string /\
  timers (attempt ascii_trim ascii_upper noon (filled " admin " "sufian001") corrupt)
    = [].
Proof.
  assert (Hn : ascii_trim " admin " <> ""%string) by (intro K; discriminate K).
  split; [exact Hn |]. split; [reflexivity |].
  exact (proj1 (proj2 (corrupt_history_blocks_login ascii_trim ascii_upper noon
                         (filled " admin " "sufian001") corrupt Hn
                         (or_intror (conj eq_refl eq_refl))
                         corrupt_has_no_array))).
Defined.

Lemma pages_are_guarded_witness :
  start empty = Done at_start /\
  page (run ascii_trim ascii_upper admin_session at_start) = PHistory /\
  is_admin (currentUser (run ascii_trim ascii_upper admin_session at_start)) = true.
Proof.
  split; [reflexivity |]. split; [reflexivity |].
  exact (proj1 (pages_are_guarded ascii_trim ascii_upper empty at_start
                  admin_session eq_refl) eq_refl).
Defined.

Lemma history_needs_admin_login_witness :
  start empty = Done at_start /\
  page (run ascii_trim ascii_upper admin_session at_start) = PHistory /\
  exists f now, In (Attempt f now) admin_session /\ pw f = "sufian001"%string.
Proof.
  split; [reflexivity |]. split; [reflexivity |].
  destruct (history_needs_admin_login ascii_trim ascii_upper empty at_start
              admin_session eq_refl eq_refl) as (f & now & Hin & _ & Hpw).
  exists f, now. split; [exact Hin | exact Hpw].
Defined.

Lemma reload_finds_user_until_logout_witness :
  saveLoginHistory "amal" false noon empty = Done after_first_login /\
  currentUser (step ascii_trim ascii_upper on_flight_list Logout) = JSNull.
Proof.
  split; [reflexivity |].
  exact (proj1 (proj2 (proj2 (reload_finds_user_until_logout ascii_trim ascii_upper
                         "amal" false noon empty after_first_login on_flight_list
                         eq_refl eq_refl eq_refl)))).
Defined.

End OnSampleLogins.
